(** * pgWrapper: a shallow embedding of [pg_wrapper.h] / [src/pg_wrapper.cpp]

    The wrapper sits on top of libpqxx.  libpqxx itself is not part of the
    repository, so everything the wrapper asks of it ([pqxx::work],
    [pqxx::connection], [pqxx::row], [pqxx::field]) is taken as a parameter:
    the theorems below hold for every implementation of that interface. *)

From Stdlib Require Import ZArith List String Bool Lia.
From Stdlib Require DecimalString.
Import ListNotations.
Local Open Scope string_scope.
Local Open Scope Z_scope.

Set Implicit Arguments.

(** ** Exceptions

    An exception is a dynamic class together with the text returned by
    [what()].  The classes are the three of [pg_wrapper.h], the two standard
    ones the wrapper throws itself, and those libpqxx may throw. *)

Inductive exn_class : Type :=
| std_out_of_range
| std_runtime_error
| cls_DatabaseError
| cls_ConnectionError
| cls_QueryError
| pqxx_sql_error
| pqxx_broken_connection
| pqxx_conversion_error
| pqxx_argument_error
| pqxx_usage_error.

Record exn : Type := mk_exn { class : exn_class; what : string }.

(** [DatabaseError::DatabaseError(msg) : std::runtime_error(msg)] *)
Definition DatabaseError (msg : string) : exn :=
  {| class := cls_DatabaseError; what := msg |}.

(** [ConnectionError::ConnectionError(msg) : DatabaseError("Connection error: " + msg)] *)
Definition ConnectionError (msg : string) : exn :=
  {| class := cls_ConnectionError; what := "Connection error: " ++ msg |}.

(** [QueryError::QueryError(msg) : DatabaseError("Query error: " + msg)] *)
Definition QueryError (msg : string) : exn :=
  {| class := cls_QueryError; what := "Query error: " ++ msg |}.

(** Would [catch (const DatabaseError&)] take this exception?  Only the
    classes declared in [pg_wrapper.h] derive from [DatabaseError];
    [std::runtime_error] is its base, not a subclass. *)
Definition is_DatabaseError (e : exn) : bool :=
  match class e with
  | cls_DatabaseError | cls_ConnectionError | cls_QueryError => true
  | _ => false
  end.

(** Would [catch (const pqxx::sql_error&)] take this exception? *)
Definition is_sql_error (e : exn) : bool :=
  match class e with
  | pqxx_sql_error => true
  | _ => false
  end.

(** What a call yields: a value, or a thrown exception. *)
Inductive outcome (A : Type) : Type :=
| Ret (a : A)
| Throw (e : exn).
Arguments Ret {A} a.
Arguments Throw {A} e.

Definition bind {A B : Type} (m : outcome A) (k : A -> outcome B) : outcome B :=
  match m with
  | Ret a => k a
  | Throw e => Throw e
  end.

Notation "x <- m ;; k" := (bind m (fun x => k))
  (at level 61, m at next level, right associativity).

(** ** What libpqxx hands back *)

(** A field is SQL NULL or carries its text representation. *)
Definition pqxx_field : Type := option string.

Record pqxx_row : Type := mk_pqxx_row {
  row_fields : list pqxx_field;
  row_names : list string
}.

Record pqxx_result : Type := mk_pqxx_result {
  result_rows : list pqxx_row;
  result_affected_rows : Z
}.

(** A bound statement parameter: NULL or text. *)
Definition param : Type := option string.

(** The backend session as the wrapper uses it.  [W] is the state of one
    session (connection plus whatever the server keeps for it); every call
    may change it whether it returns or throws. *)
Class Backend (W : Type) : Type := {
  (** [pqxx::work(conn)] *)
  pqxx_work : W -> W * outcome unit;
  (** [pqxx::work::exec(sql)] *)
  pqxx_exec : string -> W -> W * outcome pqxx_result;
  (** [pqxx::work::exec_params(sql, args...)] *)
  pqxx_exec_params : string -> list param -> W -> W * outcome pqxx_result;
  (** [pqxx::work::exec_prepared(name, args...)] *)
  pqxx_exec_prepared : string -> list param -> W -> W * outcome pqxx_result;
  (** [pqxx::work::commit()] *)
  pqxx_commit : W -> W * outcome unit;
  (** [pqxx::work::abort()] *)
  pqxx_abort : W -> W * outcome unit;
  (** [pqxx::connection::is_open()] *)
  pqxx_is_open : W -> bool
}.

(** ** Row *)

Module Row.

Record t : Type := Row { _row : pqxx_row }.

Section Accessors.

(** [pqxx::row::size_type] is [unsigned int] in libpqxx 6 and [int] in
    libpqxx 7; the header does not say which one is linked.  The
    comparisons of an [int col] with [_row.size()] convert [col]
    accordingly. *)
Variable size_type_unsigned : bool.

(** libpqxx's resolution of a column name to its position. *)
Variable column_number : pqxx_row -> string -> option nat.

(** [pqxx::field::as<T>()] parses the text with the string conversion of
    [T]. *)
Variable T : Type.
Variable from_string : string -> option T.

(** [size_t Row::size() const] *)
Definition size (r : t) : Z := Z.of_nat (List.length (row_fields (_row r))).

(** An [int] operand as the comparison with [_row.size()] and the call
    [_row[col]] see it: converted to [unsigned int] when that is the size
    type, unchanged otherwise. *)
Definition to_size_type (col : Z) : Z :=
  if size_type_unsigned then col mod 2 ^ 32 else col.

(** [_row[col]]: unchecked by libpqxx; [None] is an access outside the
    row, which the wrapper does not define. *)
Definition index (r : t) (col : Z) : option pqxx_field :=
  let i := to_size_type col in
  if i <? 0 then None else nth_error (row_fields (_row r)) (Z.to_nat i).

(** [_row[colName]]: libpqxx throws for a name it cannot resolve. *)
Definition index_name (r : t) (colName : string) : outcome pqxx_field :=
  match column_number (_row r) colName with
  | Some i =>
      match nth_error (row_fields (_row r)) i with
      | Some f => Ret f
      | None => Throw (mk_exn pqxx_argument_error ("Unknown column name: " ++ colName))
      end
  | None => Throw (mk_exn pqxx_argument_error ("Unknown column name: " ++ colName))
  end.

(** [pqxx::field::is_null()] *)
Definition field_is_null (f : pqxx_field) : bool :=
  match f with
  | None => true
  | Some _ => false
  end.

(** [pqxx::field::as<T>()] *)
Definition field_as (f : pqxx_field) : outcome T :=
  match f with
  | None => Throw (mk_exn pqxx_conversion_error "Attempt to convert null")
  | Some raw =>
      match from_string raw with
      | Some v => Ret v
      | None => Throw (mk_exn pqxx_conversion_error ("Could not convert: " ++ raw))
      end
  end.

(** [T Row::get(int col) const] *)
Definition get (r : t) (col : Z) : option (outcome T) :=
  if to_size_type col >=? size r then
    Some (Throw (mk_exn std_out_of_range "Column index out of range"))
  else
    option_map field_as (index r col).

(** [T Row::get(const std::string& colName) const] *)
Definition get_name (r : t) (colName : string) : outcome T :=
  f <- index_name r colName ;; field_as f.

(** [std::optional<T> Row::get_optional(int col) const] *)
Definition get_optional (r : t) (col : Z) : option (outcome (option T)) :=
  if to_size_type col >=? size r then
    Some (Throw (mk_exn std_out_of_range "Column index out of range"))
  else
    option_map
      (fun f => if field_is_null f then Ret None
                else v <- field_as f ;; Ret (Some v))
      (index r col).

(** [std::optional<T> Row::get_optional(const std::string& colName) const] *)
Definition get_optional_name (r : t) (colName : string) : outcome (option T) :=
  field <- index_name r colName ;;
  if field_is_null field then Ret None
  else v <- field_as field ;; Ret (Some v).

(** [bool Row::is_null(int col) const]: [&&] does not evaluate
    [_row[col]] when the comparison fails. *)
Definition is_null (r : t) (col : Z) : option bool :=
  if to_size_type col <? size r then
    option_map field_is_null (index r col)
  else Some false.

(** [bool Row::is_null(const std::string& colName) const] *)
Definition is_null_name (r : t) (colName : string) : outcome bool :=
  f <- index_name r colName ;; Ret (field_is_null f).

(** The two overloads of each accessor, selected by the kind of column
    reference; the index overloads keep their [None] for an access
    outside the row. *)
Inductive column : Type :=
| by_index (col : Z)
| by_name (colName : string).

(** [col] is an [int]. *)
Definition is_int (col : Z) : bool :=
  (- 2 ^ 31 <=? col) && (col <? 2 ^ 31).

(** A reference is valid for a row when it is an index inside the row or
    a name libpqxx resolves to one. *)
Definition valid (r : t) (c : column) : bool :=
  match c with
  | by_index col => is_int col && (0 <=? col) && (col <? size r)
  | by_name colName =>
      match column_number (_row r) colName with
      | Some i => (i <? List.length (row_fields (_row r)))%nat
      | None => false
      end
  end.

Definition is_null_at (r : t) (c : column) : option (outcome bool) :=
  match c with
  | by_index col => option_map Ret (is_null r col)
  | by_name colName => Some (is_null_name r colName)
  end.

Definition get_optional_at (r : t) (c : column) : option (outcome (option T)) :=
  match c with
  | by_index col => get_optional r col
  | by_name colName => Some (get_optional_name r colName)
  end.

End Accessors.

End Row.

(** ** Result *)

Module Result.

Record t : Type := Result { _result : pqxx_result }.

(** [size_t Result::size() const]; no arithmetic is done on these sizes, so
    a natural number stands for the [size_t]. *)
Definition size (res : t) : N := N.of_nat (List.length (result_rows (_result res))).

(** [bool Result::empty() const] *)
Definition empty (res : t) : bool :=
  match result_rows (_result res) with
  | [] => true
  | _ :: _ => false
  end.

(** [size_t Result::affected_rows() const] *)
Definition affected_rows (res : t) : Z := result_affected_rows (_result res).

(** [Row Result::operator[](size_t rowNum) const]; the last branch stands
    for [_result[rowNum]] past the end, which the test above excludes. *)
Definition index (res : t) (rowNum : N) : outcome Row.t :=
  if (size res <=? rowNum)%N then
    Throw (mk_exn std_out_of_range "Row index out of range")
  else
    match nth_error (result_rows (_result res)) (N.to_nat rowNum) with
    | Some r => Ret (Row.Row r)
    | None => Throw (mk_exn std_out_of_range "Row index out of range")
    end.

(** [Row Result::at(size_t rowNum) const]: forwards to [operator[]]. *)
Definition at_ (res : t) (rowNum : N) : outcome Row.t := index res rowNum.

(** [Row Result::front() const] *)
Definition front (res : t) : outcome Row.t :=
  match result_rows (_result res) with
  | [] => Throw (mk_exn std_runtime_error "Result is empty")
  | r :: _ => Ret (Row.Row r)
  end.

(** [std::optional<Row> Result::front_optional() const] *)
Definition front_optional (res : t) : option Row.t :=
  match result_rows (_result res) with
  | [] => None
  | r :: _ => Some (Row.Row r)
  end.

Section ToVector.

(** The converter is caller code: it returns a value or throws. *)
Variable T : Type.
Variable converter : Row.t -> outcome T.

(** The range-for of [to_vector], from the row the iterator stands on to
    [end()], with [vec] as filled so far; an exception of the converter
    leaves the loop. *)
Fixpoint to_vector_loop (rows : list pqxx_row) (vec : list T) : outcome (list T) :=
  match rows with
  | [] => Ret vec
  | r :: rest =>
      v <- converter (Row.Row r) ;; to_vector_loop rest (vec ++ [v])%list
  end.

(** [std::vector<T> Result::to_vector(std::function<T(const Row&)>) const] *)
Definition to_vector (res : t) : outcome (list T) :=
  to_vector_loop (result_rows (_result res)) [].

End ToVector.

End Result.

(** ** Transaction *)

Module Transaction.

(** [_txn] is the [pqxx::work] handle, here the session it drives;
    [_committed] is the only lifecycle state the class keeps. *)
Record t (W : Type) : Type := Transaction { _txn : W; _committed : bool }.

Section Methods.

Context {W : Type} {B : Backend W}.

(** [Transaction::Transaction(pqxx::connection& conn)]: a throwing
    [pqxx::work] constructor leaves no Transaction behind. *)
Definition ctor (conn : W) : W * outcome (t W) :=
  let (w, r) := pqxx_work conn in
  match r with
  | Ret _ => (w, Ret {| _txn := w; _committed := false |})
  | Throw e => (w, Throw e)
  end.

(** [Transaction::~Transaction()]: the session as the destructor leaves
    it; [catch (...)] drops whatever [abort] throws. *)
Definition dtor (txn : t W) : W :=
  if negb (_committed txn) then fst (pqxx_abort (_txn txn))
  else _txn txn.

(** The two handlers shared by the three statement-executing methods:
    [pqxx::sql_error] becomes [QueryError], any other [std::exception]
    becomes [DatabaseError]. *)
Definition translate (e : exn) : exn :=
  if is_sql_error e then QueryError (what e) else DatabaseError (what e).

Definition wrap (r : outcome pqxx_result) : outcome Result.t :=
  match r with
  | Ret res => Ret (Result.Result res)
  | Throw e => Throw (translate e)
  end.

(** [Result Transaction::exec(const std::string& sql)] *)
Definition exec (sql : string) (txn : t W) : t W * outcome Result.t :=
  let (w, r) := pqxx_exec sql (_txn txn) in
  ({| _txn := w; _committed := _committed txn |}, wrap r).

(** [Result Transaction::exec_params(const std::string& sql, Args&&...)] *)
Definition exec_params (sql : string) (args : list param) (txn : t W)
  : t W * outcome Result.t :=
  let (w, r) := pqxx_exec_params sql args (_txn txn) in
  ({| _txn := w; _committed := _committed txn |}, wrap r).

(** [Result Transaction::exec_prepared(const std::string& name, Args&&...)] *)
Definition exec_prepared (name : string) (args : list param) (txn : t W)
  : t W * outcome Result.t :=
  let (w, r) := pqxx_exec_prepared name args (_txn txn) in
  ({| _txn := w; _committed := _committed txn |}, wrap r).

(** [void Transaction::commit()]: the flag is set by the statement after
    [_txn->commit()], which a throwing backend commit skips. *)
Definition commit (txn : t W) : t W * outcome unit :=
  if _committed txn then
    (txn, Throw (mk_exn std_runtime_error "Transaction already committed"))
  else
    let (w, r) := pqxx_commit (_txn txn) in
    match r with
    | Ret _ => ({| _txn := w; _committed := true |}, Ret tt)
    | Throw e => ({| _txn := w; _committed := false |}, Throw (DatabaseError (what e)))
    end.

(** [void Transaction::abort()]: no handler here, a backend exception
    leaves as it is and skips the assignment. *)
Definition abort (txn : t W) : t W * outcome unit :=
  if negb (_committed txn) then
    let (w, r) := pqxx_abort (_txn txn) in
    match r with
    | Ret _ => ({| _txn := w; _committed := true |}, Ret tt)
    | Throw e => ({| _txn := w; _committed := false |}, Throw e)
    end
  else (txn, Ret tt).

(** The lifecycle state as the class records it: Open while the flag is
    clear, terminal once it is set. *)
Definition is_terminal (txn : t W) : bool := _committed txn.

End Methods.

End Transaction.

(** ** What the wrapper relies on in a [pqxx::work] handle

    libpqxx keeps the status of a transaction handle: the handle is closed
    once its [commit()] or [abort()] has returned, and a closed handle
    refuses a statement with [pqxx::usage_error] before anything is sent.
    The library is outside the repository, so this behaviour cannot be read
    off the sources; a property of the wrapper that rests on it takes it as
    a hypothesis in this form, [closed] telling the sessions whose handle is
    closed. *)
Record handle_keeps_status {W : Type} {B : Backend W} (closed : W -> bool) : Prop := {
  commit_closes :
    forall w w', pqxx_commit w = (w', Ret tt) -> closed w' = true;
  abort_closes :
    forall w w', pqxx_abort w = (w', Ret tt) -> closed w' = true;
  exec_refused :
    forall sql w, closed w = true ->
      exists msg, pqxx_exec sql w = (w, Throw (mk_exn pqxx_usage_error msg));
  exec_params_refused :
    forall sql args w, closed w = true ->
      exists msg, pqxx_exec_params sql args w = (w, Throw (mk_exn pqxx_usage_error msg));
  exec_prepared_refused :
    forall name args w, closed w = true ->
      exists msg, pqxx_exec_prepared name args w = (w, Throw (mk_exn pqxx_usage_error msg))
}.

(** ** Database *)

Module Database.

(** [_conn] is the owned [pqxx::connection], absent after [close()]. *)
Record t (W : Type) : Type := Database { _conn : option W }.

Section Methods.

Context {W : Type} {B : Backend W}.

(** [Database::Database(const std::string& connectionString)];
    [connect] is what [pqxx::connection(connectionString)] does at the
    moment of the call. *)
Definition ctor (connect : string -> outcome W) (connectionString : string)
  : outcome (t W) :=
  match connect connectionString with
  | Ret w => Ret {| _conn := Some w |}
  | Throw e => Throw (ConnectionError (what e))
  end.

(** [bool is_open() const { return _conn && _conn->is_open(); }] *)
Definition is_open (db : t W) : bool :=
  match _conn db with
  | Some w => pqxx_is_open w
  | None => false
  end.

(** [Transaction Database::begin_transaction()] *)
Definition begin_transaction (db : t W) : t W * outcome (Transaction.t W) :=
  if negb (is_open db) then
    (db, Throw (ConnectionError "Connection is not open"))
  else
    match _conn db with
    | Some conn =>
        let (w, r) := Transaction.ctor conn in
        ({| _conn := Some w |}, r)
    | None => (db, Throw (ConnectionError "Connection is not open"))
    end.

(** The body shared by [exec], [exec_params] and [exec_prepared]:
    [auto txn = begin_transaction(); auto result = txn.<run>; txn.commit();
    return result;] with the destructor of the local [txn] running on
    every way out of the scope. *)
Definition autocommit
    (run : Transaction.t W -> Transaction.t W * outcome Result.t)
    (db : t W) : t W * outcome Result.t :=
  match begin_transaction db with
  | (db', Throw e) => (db', Throw e)
  | (_, Ret txn) =>
      let (txn1, r) := run txn in
      match r with
      | Throw e => ({| _conn := Some (Transaction.dtor txn1) |}, Throw e)
      | Ret result =>
          let (txn2, c) := Transaction.commit txn1 in
          match c with
          | Throw e => ({| _conn := Some (Transaction.dtor txn2) |}, Throw e)
          | Ret _ => ({| _conn := Some (Transaction.dtor txn2) |}, Ret result)
          end
      end
  end.

(** [Result Database::exec(const std::string& sql)] *)
Definition exec (sql : string) (db : t W) : t W * outcome Result.t :=
  autocommit (Transaction.exec sql) db.

(** [Result Database::exec_params(const std::string& sql, Args&&...)] *)
Definition exec_params (sql : string) (args : list param) (db : t W)
  : t W * outcome Result.t :=
  autocommit (Transaction.exec_params sql args) db.

(** [Result Database::exec_prepared(const std::string& name, Args&&...)] *)
Definition exec_prepared (name : string) (args : list param) (db : t W)
  : t W * outcome Result.t :=
  autocommit (Transaction.exec_prepared name args) db.

(** What section 4.4 of the specification asks of the three wrappers,
    written on the backend calls of a session [w] in which the
    transaction has begun, to compare [autocommit] with: run the
    statement once; if it went through, commit and return the Result; on
    a failure abort, whatever the abort itself does, and raise the error
    of the failed step. *)
Definition autocommit_spec (stmt : W -> W * outcome pqxx_result) (w : W)
  : t W * outcome Result.t :=
  match stmt w with
  | (w1, Ret res) =>
      match pqxx_commit w1 with
      | (w2, Ret _) => ({| _conn := Some w2 |}, Ret (Result.Result res))
      | (w2, Throw e) =>
          ({| _conn := Some (fst (pqxx_abort w2)) |}, Throw (DatabaseError (what e)))
      end
  | (w1, Throw e) =>
      ({| _conn := Some (fst (pqxx_abort w1)) |}, Throw (Transaction.translate e))
  end.

(** [void Database::close()] *)
Definition close (db : t W) : t W := {| _conn := None |}.

(** The descriptor the five-parameter constructor assembles in [oss]. *)
Definition descriptor (host port dbname user password : string) : string :=
  "host=" ++ host ++ " port=" ++ port ++ " dbname=" ++ dbname
  ++ " user=" ++ user ++ " password=" ++ password.

(** [Database::Database(host, port, dbname, user, password)] *)
Definition ctor_params (connect : string -> outcome W)
    (host port dbname user password : string) : outcome (t W) :=
  match connect (descriptor host port dbname user password) with
  | Ret w => Ret {| _conn := Some w |}
  | Throw e => Throw (ConnectionError (what e))
  end.

(** [void Database::prepare(name, sql)]; [pqxx_prepare] is
    [pqxx::connection::prepare].  [_conn] is dereferenced unchecked: [None]
    is the call on a closed Database, which the wrapper does not define. *)
Definition prepare (pqxx_prepare : string -> string -> W -> W * outcome unit)
    (name sql : string) (db : t W) : option (t W * outcome unit) :=
  match _conn db with
  | None => None
  | Some conn =>
      let (w, r) := pqxx_prepare name sql conn in
      Some ({| _conn := Some w |},
            match r with
            | Ret _ => Ret tt
            | Throw e => Throw (DatabaseError (what e))
            end)
  end.

(** [oss << (i + 1)] *)
Definition decimal (n : nat) : string :=
  DecimalString.NilZero.string_of_uint (Nat.to_uint n).

(** [for (size_t i = 0; i < columns.size(); ++i) { if (i > 0) oss << ", ";
    oss << columns[i]; }], entered at index [i] with [columns] the names
    still to write. *)
Fixpoint write_columns (i : nat) (columns : list string) (oss : string) : string :=
  match columns with
  | [] => oss
  | c :: rest =>
      let oss := if (0 <? i)%nat then oss ++ ", " else oss in
      write_columns (S i) rest (oss ++ c)
  end.

(** [for (size_t i = 0; i < columns.size(); ++i) { if (i > 0) oss << ", ";
    oss << "$" << (i + 1); }], entered at index [i] with [left] rounds
    to go. *)
Fixpoint write_placeholders (i left : nat) (oss : string) : string :=
  match left with
  | O => oss
  | S left' =>
      let oss := if (0 <? i)%nat then oss ++ ", " else oss in
      write_placeholders (S i) left' (oss ++ "$" ++ decimal (i + 1))
  end.

(** The placeholder the second loop writes in round [i]. *)
Definition placeholder (i : nat) : string := "$" ++ decimal (i + 1).

(** The statement [insert] builds in [oss]. *)
Definition insert_sql (table : string) (columns : list string) : string :=
  let oss := "INSERT INTO " ++ table ++ " (" in
  let oss := write_columns 0 columns oss in
  let oss := oss ++ ") VALUES (" in
  let oss := write_placeholders 0 (List.length columns) oss in
  oss ++ ")".

(** What [insert] yields: [std::invalid_argument], thrown before anything
    else is done, or the call of [exec_params]. *)
Inductive checked (A : Type) : Type :=
| std_invalid_argument (msg : string)
| proceeds (a : A).

(** [void Database::insert(table, columns, Args&&... values)] *)
Definition insert (table : string) (columns : list string) (values : list param)
    (db : t W) : checked (t W * outcome unit) :=
  if negb (List.length values =? List.length columns)%nat then
    std_invalid_argument _ "Number of values doesn't match number of columns"
  else
    let (db', r) := exec_params (insert_sql table columns) values db in
    proceeds (db', _ <- r ;; Ret tt).

(** [row.get<T>(0)]: column 0 is never an access outside the row, the
    bounds test of [get] refuses it on a row without columns. *)
Definition get_first (size_type_unsigned : bool) (T : Type)
    (from_string : string -> option T) (row : Row.t) : outcome T :=
  match Row.get size_type_unsigned from_string row 0 with
  | Some o => o
  | None => Throw (mk_exn std_out_of_range "Column index out of range")
  end.

(** [bool Database::table_exists(const std::string& tableName)];
    [bool_from_string] is libpqxx's conversion to [bool]. *)
Definition table_exists (size_type_unsigned : bool)
    (bool_from_string : string -> option bool) (tableName : string) (db : t W)
  : t W * outcome bool :=
  let (db', r) :=
    exec_params
      "SELECT EXISTS (SELECT FROM information_schema.tables WHERE table_name = $1)"
      [Some tableName] db in
  (db',
   result <- r ;;
   row <- Result.front result ;;
   get_first size_type_unsigned bool_from_string row).

(** [std::vector<std::string> Database::get_columns(const std::string&)];
    its range-for has the shape of the one in [to_vector], and the
    conversion to [std::string] hands back the text as it is. *)
Definition get_columns (size_type_unsigned : bool) (tableName : string) (db : t W)
  : t W * outcome (list string) :=
  let (db', r) :=
    exec_params
      "SELECT column_name FROM information_schema.columns WHERE table_name = $1 ORDER BY ordinal_position"
      [Some tableName] db in
  (db',
   result <- r ;;
   Result.to_vector_loop (get_first size_type_unsigned (fun text => Some text))
     (result_rows (Result._result result)) []).

End Methods.

End Database.

(** ** ConnectionPool *)

(** [size_t] arithmetic: 64-bit, wrapping. *)
Definition SIZE_MAX : Z := 2 ^ 64 - 1.
Definition size_incr (n : Z) : Z := (n + 1) mod 2 ^ 64.
Definition size_decr (n : Z) : Z := (n - 1) mod 2 ^ 64.

(** [std::vector::back()] together with [pop_back()]. *)
Fixpoint pop_back {A : Type} (v : list A) : option (list A * A) :=
  match v with
  | [] => None
  | x :: v' =>
      match pop_back v' with
      | None => Some ([], x)
      | Some (init, b) => Some (x :: init, b)
      end
  end.

(** [std::vector::push_back] *)
Definition push_back {A : Type} (v : list A) (x : A) : list A := (v ++ [x])%list.

Module ConnectionPool.

Record t (W : Type) : Type := ConnectionPool {
  _connectionString : string;
  _pool : list (Database.t W);
  _maxConnections : Z;
  _currentConnections : Z
}.

Section Methods.

Context {W : Type} {B : Backend W}.

(** [ConnectionPool::ConnectionPool(connectionString, maxConnections)];
    [_currentConnections{0}] is the member initialiser of the header. *)
Definition ctor (connectionString : string) (maxConnections : Z) : t W :=
  {| _connectionString := connectionString;
     _pool := [];
     _maxConnections := maxConnections;
     _currentConnections := 0 |}.

(** [std::unique_ptr<Database> ConnectionPool::get_connection()];
    [None] is [nullptr].  The counter is bumped before the [Database] is
    constructed and nothing restores it when the constructor throws. *)
Definition get_connection (connect : string -> outcome W) (p : t W)
  : t W * outcome (option (Database.t W)) :=
  match pop_back (_pool p) with
  | Some (rest, conn) =>
      ({| _connectionString := _connectionString p;
          _pool := rest;
          _maxConnections := _maxConnections p;
          _currentConnections := _currentConnections p |},
       Ret (Some conn))
  | None =>
      if _currentConnections p <? _maxConnections p then
        let p' := {| _connectionString := _connectionString p;
                     _pool := _pool p;
                     _maxConnections := _maxConnections p;
                     _currentConnections := size_incr (_currentConnections p) |} in
        (p', db <- Database.ctor connect (_connectionString p) ;; Ret (Some db))
      else (p, Ret None)
  end.

(** [--_currentConnections;] *)
Definition drop (p : t W) : t W :=
  {| _connectionString := _connectionString p;
     _pool := _pool p;
     _maxConnections := _maxConnections p;
     _currentConnections := size_decr (_currentConnections p) |}.

(** [!conn || !conn->is_open()] *)
Definition is_dead (conn : option (Database.t W)) : bool :=
  match conn with
  | None => true
  | Some db => negb (Database.is_open db)
  end.

(** [void ConnectionPool::return_connection(std::unique_ptr<Database> conn)] *)
Definition return_connection (conn : option (Database.t W)) (p : t W) : t W :=
  if is_dead conn then drop p
  else
    match conn with
    | Some db =>
        if Z.of_nat (List.length (_pool p)) <? _maxConnections p then
          {| _connectionString := _connectionString p;
             _pool := push_back (_pool p) db;
             _maxConnections := _maxConnections p;
             _currentConnections := _currentConnections p |}
        else drop p
    | None => drop p
    end.

(** Callers of the pool, one call at a time (the mutex serialises
    them). *)
Inductive op : Type :=
| op_get (connect : string -> outcome W)
| op_return (conn : option (Database.t W)).

Definition step (o : op) (p : t W) : t W :=
  match o with
  | op_get connect => fst (get_connection connect p)
  | op_return conn => return_connection conn p
  end.

(** Every pool state a sequence of calls goes through, the first
    included. *)
Fixpoint states (ops : list op) (p : t W) : list (t W) :=
  p :: match ops with
       | [] => []
       | o :: rest => states rest (step o p)
       end.

(** A caller keeps to the lease discipline when it only returns what it
    was handed: each [return_connection] gives back a non-null connection
    obtained from an earlier [get_connection] and not returned since.
    [leased] counts the connections out on lease. *)
Fixpoint disciplined (ops : list op) (p : t W) (leased : nat) : bool :=
  match ops with
  | [] => true
  | op_get connect :: rest =>
      match get_connection connect p with
      | (p', Ret (Some _)) => disciplined rest p' (S leased)
      | (p', _) => disciplined rest p' leased
      end
  | op_return conn :: rest =>
      match conn, leased with
      | Some _, S l => disciplined rest (return_connection conn p) l
      | _, _ => false
      end
  end.

(** The bounds of the pool: live count within [[0, N]], idle store no
    larger than [N]. *)
Definition within_bounds (p : t W) : Prop :=
  0 <= _currentConnections p <= _maxConnections p /\
  Z.of_nat (List.length (_pool p)) <= _maxConnections p.

(** What the calls keep when [leased] connections are out on lease:
    idle and leased connections together never outnumber the live count,
    which never passes the capacity [N]. *)
Definition accounted (N : Z) (p : t W) (leased : nat) : Prop :=
  _maxConnections p = N /\
  Z.of_nat (List.length (_pool p)) + Z.of_nat leased <= _currentConnections p <= N.

End Methods.

End ConnectionPool.

(** ** A scripted backend

    A concrete session to run the wrapper on: it logs every call it receives
    and answers from a script, one entry per call ([None]: the call succeeds,
    [Some e]: it throws [e]); once the script is used up every call
    succeeds. *)

Module Scripted.

Inductive call : Type :=
| call_work
| call_exec (sql : string)
| call_exec_params (sql : string) (args : list param)
| call_exec_prepared (name : string) (args : list param)
| call_commit
| call_abort.

Record session : Type := Session {
  log : list call;
  script : list (option exn);
  alive : bool
}.

Definition answer {A : Type} (c : call) (a : A) (s : session) : session * outcome A :=
  match script s with
  | [] => ({| log := (log s ++ [c])%list; script := []; alive := alive s |}, Ret a)
  | None :: rest =>
      ({| log := (log s ++ [c])%list; script := rest; alive := alive s |}, Ret a)
  | Some e :: rest =>
      ({| log := (log s ++ [c])%list; script := rest; alive := alive s |}, Throw e)
  end.

(** The rows every successful statement returns: [(id, age) = (1, NULL)]. *)
Definition sample_row : pqxx_row :=
  {| row_fields := [Some "1"; None]; row_names := ["id"; "age"] |}.

Definition sample_result : pqxx_result :=
  {| result_rows := [sample_row]; result_affected_rows := 1 |}.

#[global] Instance backend : Backend session := {|
  pqxx_work := answer call_work tt;
  pqxx_exec := fun sql => answer (call_exec sql) sample_result;
  pqxx_exec_params := fun sql args => answer (call_exec_params sql args) sample_result;
  pqxx_exec_prepared := fun name args => answer (call_exec_prepared name args) sample_result;
  pqxx_commit := answer call_commit tt;
  pqxx_abort := answer call_abort tt;
  pqxx_is_open := alive
|}.

(** A fresh live session with the given script. *)
Definition fresh (replies : list (option exn)) : session :=
  {| log := []; script := replies; alive := true |}.

(** Name resolution by first exact match. *)
Fixpoint first_match (names : list string) (colName : string) : option nat :=
  match names with
  | [] => None
  | n :: rest =>
      if String.eqb n colName then Some 0%nat
      else option_map S (first_match rest colName)
  end.

Definition column_number (r : pqxx_row) (colName : string) : option nat :=
  first_match (row_names r) colName.

(** Decimal text to a number, the [from_string] of the examples. *)
Definition digit (c : Ascii.ascii) : option Z :=
  let n := Z.of_nat (Ascii.nat_of_ascii c) in
  if (48 <=? n) && (n <=? 57) then Some (n - 48) else None.

Fixpoint parse_digits (s : string) (acc : Z) : option Z :=
  match s with
  | EmptyString => Some acc
  | String c rest =>
      match digit c with
      | Some d => parse_digits rest (10 * acc + d)
      | None => None
      end
  end.

Definition int_from_string (s : string) : option Z :=
  match s with
  | EmptyString => None
  | _ => parse_digits s 0
  end.

(** Text to [bool], the conversion of the examples. *)
Definition bool_from_string (s : string) : option bool :=
  if String.eqb s "t" || String.eqb s "true" || String.eqb s "1" then Some true
  else if String.eqb s "f" || String.eqb s "false" || String.eqb s "0" then Some false
  else None.

(** The failures used in the examples. *)
Definition serialization_failure : exn :=
  mk_exn pqxx_sql_error "could not serialize access".
Definition lost_connection : exn :=
  mk_exn pqxx_broken_connection "server closed the connection unexpectedly".
Definition division_by_zero : exn :=
  mk_exn pqxx_sql_error "ERROR:  division by zero".

(** An Open transaction on a fresh session. *)
Definition open_txn (replies : list (option exn)) : Transaction.t session :=
  {| Transaction._txn := fresh replies; Transaction._committed := false |}.

(** A live connection on a fresh session. *)
Definition live_db (replies : list (option exn)) : Database.t session :=
  {| Database._conn := Some (fresh replies) |}.

Definition refuse (_ : string) : outcome session :=
  Throw (mk_exn pqxx_broken_connection "connection refused").
Definition accept (_ : string) : outcome session :=
  Ret (fresh []).

End Scripted.

(** ** A scripted backend whose handle keeps its status

    The scripted session behind a handle that behaves as libpqxx's does:
    active after [pqxx::work], closed by a commit or an abort, and refusing
    whatever reaches it when it is in the wrong state with
    [pqxx::usage_error], without passing the call on. *)

Module Tracked.

Inductive status : Type :=
| active
| committed
| aborted.

Record session : Type := Session {
  handle : status;
  wire : Scripted.session
}.

Definition closed (s : session) : bool :=
  match handle s with
  | active => false
  | committed | aborted => true
  end.

Definition refuse {A : Type} (s : session) : session * outcome A :=
  (s, Throw (mk_exn pqxx_usage_error "transaction is already closed")).

Definition work (s : session) : session * outcome unit :=
  let (wire', r) := Scripted.answer Scripted.call_work tt (wire s) in
  ({| handle := active; wire := wire' |}, r).

Definition statement (c : Scripted.call) (s : session) : session * outcome pqxx_result :=
  if closed s then refuse s
  else
    let (wire', r) := Scripted.answer c Scripted.sample_result (wire s) in
    ({| handle := handle s; wire := wire' |}, r).

(** A commit that fails leaves the handle aborted; committing a committed
    handle again does nothing. *)
Definition commit (s : session) : session * outcome unit :=
  match handle s with
  | active =>
      let (wire', r) := Scripted.answer Scripted.call_commit tt (wire s) in
      match r with
      | Ret _ => ({| handle := committed; wire := wire' |}, Ret tt)
      | Throw e => ({| handle := aborted; wire := wire' |}, Throw e)
      end
  | committed => (s, Ret tt)
  | aborted => refuse s
  end.

(** An abort closes the handle whether the rollback went through or not;
    aborting an aborted handle again does nothing. *)
Definition abort (s : session) : session * outcome unit :=
  match handle s with
  | active =>
      let (wire', r) := Scripted.answer Scripted.call_abort tt (wire s) in
      ({| handle := aborted; wire := wire' |}, r)
  | aborted => (s, Ret tt)
  | committed => refuse s
  end.

#[global] Instance backend : Backend session := {|
  pqxx_work := work;
  pqxx_exec := fun sql => statement (Scripted.call_exec sql);
  pqxx_exec_params := fun sql args => statement (Scripted.call_exec_params sql args);
  pqxx_exec_prepared := fun name args => statement (Scripted.call_exec_prepared name args);
  pqxx_commit := commit;
  pqxx_abort := abort;
  pqxx_is_open := fun s => Scripted.alive (wire s)
|}.

(** An Open transaction on an active handle over a fresh session. *)
Definition open_txn (replies : list (option exn)) : Transaction.t session :=
  {| Transaction._txn := {| handle := active; wire := Scripted.fresh replies |};
     Transaction._committed := false |}.

End Tracked.

(** * Properties *)

Unset Implicit Arguments.

(** ** Row *)

Lemma geb_false_lt (a b : Z) : a < b -> (a >=? b) = false.
Proof. intros H. rewrite Z.geb_leb. apply Z.leb_gt. exact H. Qed.

Lemma geb_true_ge (a b : Z) : b <= a -> (a >=? b) = true.
Proof. intros H. rewrite Z.geb_leb. apply Z.leb_le. exact H. Qed.

Section RowFacts.

Variable size_type_unsigned : bool.

Lemma to_size_type_nonneg_int (col : Z) :
  Row.is_int col = true -> 0 <= col ->
  Row.to_size_type size_type_unsigned col = col.
Proof.
  unfold Row.is_int, Row.to_size_type. intros Hint Hpos.
  apply andb_true_iff in Hint. destruct Hint as [_ Hhi].
  apply Z.ltb_lt in Hhi.
  destruct size_type_unsigned; [ | reflexivity ].
  apply Z.mod_small. lia.
Qed.

Lemma index_inside (r : Row.t) (col : Z) :
  Row.is_int col = true -> 0 <= col < Row.size r ->
  exists f, Row.index size_type_unsigned r col = Some f.
Proof.
  intros Hint [Hlo Hhi]. unfold Row.index.
  rewrite (to_size_type_nonneg_int col Hint Hlo).
  destruct (col <? 0) eqn:Hneg; [ apply Z.ltb_lt in Hneg; lia | ].
  destruct (nth_error (row_fields (Row._row r)) (Z.to_nat col)) as [f | ] eqn:Hnth.
  - now exists f.
  - apply nth_error_None in Hnth. unfold Row.size in Hhi. lia.
Qed.

End RowFacts.

(** C7. For a column reference that is valid for the row, an index inside
    the row or a name that resolves to one, [is_null] answers true exactly
    when [get_optional<T>] returns the empty optional. *)
Theorem Row_is_null_iff_get_optional_empty :
  forall (size_type_unsigned : bool)
         (column_number : pqxx_row -> string -> option nat)
         (T : Type) (from_string : string -> option T)
         (r : Row.t) (c : Row.column),
    Row.valid column_number r c = true ->
    Row.is_null_at size_type_unsigned column_number r c = Some (Ret true) <->
    Row.get_optional_at size_type_unsigned column_number from_string r c = Some (Ret None).
Proof.
  intros u cn T from_string r [col | colName] Hvalid; simpl in *.
  - apply andb_true_iff in Hvalid. destruct Hvalid as [Hvalid Hhi].
    apply andb_true_iff in Hvalid. destruct Hvalid as [Hint Hlo].
    apply Z.leb_le in Hlo. apply Z.ltb_lt in Hhi.
    destruct (index_inside u r col Hint (conj Hlo Hhi)) as [f Hf].
    unfold Row.is_null, Row.get_optional.
    rewrite (to_size_type_nonneg_int u col Hint Hlo), Hf.
    replace (col <? Row.size r) with true by (symmetry; now apply Z.ltb_lt).
    rewrite (geb_false_lt _ _ Hhi).
    destruct f as [raw | ]; simpl.
    + destruct (from_string raw); simpl; split; discriminate.
    + split; reflexivity.
  - unfold Row.is_null_name, Row.get_optional_name, Row.index_name.
    destruct (cn (Row._row r) colName) as [i | ]; [ | discriminate ].
    destruct (nth_error (row_fields (Row._row r)) i) as [[raw | ] | ] eqn:Hnth; simpl.
    + destruct (from_string raw); simpl; split; discriminate.
    + split; reflexivity.
    + apply nth_error_None in Hnth. apply Nat.ltb_lt in Hvalid. lia.
Qed.

(** The age column of the sample row is NULL, by index and by name. *)
Lemma Row_is_null_iff_get_optional_empty_witness :
  (Row.is_null_at false Scripted.column_number (Row.Row Scripted.sample_row) (Row.by_index 1)
     = Some (Ret true) <->
   Row.get_optional_at false Scripted.column_number Scripted.int_from_string
     (Row.Row Scripted.sample_row) (Row.by_index 1) = Some (Ret None)) /\
  (Row.is_null_at true Scripted.column_number (Row.Row Scripted.sample_row) (Row.by_name "age")
     = Some (Ret true) <->
   Row.get_optional_at true Scripted.column_number Scripted.int_from_string
     (Row.Row Scripted.sample_row) (Row.by_name "age") = Some (Ret None)).
Proof.
  split.
  - apply (@Row_is_null_iff_get_optional_empty false Scripted.column_number Z
             Scripted.int_from_string (Row.Row Scripted.sample_row) (Row.by_index 1)).
    reflexivity.
  - apply (@Row_is_null_iff_get_optional_empty true Scripted.column_number Z
             Scripted.int_from_string (Row.Row Scripted.sample_row) (Row.by_name "age")).
    reflexivity.
Defined.



(** Below the row.  A negative [col] is refused like one past the end when
    libpqxx's size type is unsigned; when it is signed the bounds test lets
    it through and the accessors reach [_row[col]] outside the row. *)
Remark Row_negative_index :
  forall (T : Type) (from_string : string -> option T) (r : Row.t) (col : Z),
    Row.is_int col = true ->
    col < 0 ->
    Row.size r <= 2 ^ 31 ->
    Row.is_null true r col = Some false /\
    Row.get true from_string r col
      = Some (Throw (mk_exn std_out_of_range "Column index out of range")) /\
    Row.is_null false r col = None /\
    Row.get false from_string r col = None.
Proof.
  intros T from_string r col Hint Hneg Hsize.
  unfold Row.is_int in Hint. apply andb_true_iff in Hint. destruct Hint as [Hlo _].
  apply Z.leb_le in Hlo.
  assert (Hconv : col mod 2 ^ 32 = col + 2 ^ 32).
  { symmetry. apply (Z.mod_unique_pos _ _ (-1)); lia. }
  assert (Hnonneg : 0 <= Row.size r) by (unfold Row.size; lia).
  unfold Row.is_null, Row.get, Row.index, Row.to_size_type. rewrite Hconv.
  replace (col + 2 ^ 32 <? Row.size r) with false by (symmetry; apply Z.ltb_ge; lia).
  rewrite (geb_true_ge (col + 2 ^ 32) (Row.size r)) by lia.
  replace (col <? Row.size r) with true by (symmetry; apply Z.ltb_lt; lia).
  rewrite (geb_false_lt col (Row.size r)) by lia.
  replace (col <? 0) with true by (symmetry; apply Z.ltb_lt; lia).
  repeat split.
Qed.


(** ** Transaction *)

Section TransactionFacts.

Context {W : Type} {B : Backend W}.

Lemma wrap_throws (r : outcome pqxx_result) :
  (exists e, Transaction.wrap r = Throw e) <-> (exists e, r = Throw e).
Proof.
  destruct r as [res | e]; simpl; split; intros [e' H]; try discriminate.
  - now exists e.
  - now exists (Transaction.translate e).
Qed.

Lemma commit_on_terminal (txn : Transaction.t W) :
  Transaction.is_terminal txn = true ->
  Transaction.commit txn
  = (txn, Throw (mk_exn std_runtime_error "Transaction already committed")).
Proof.
  unfold Transaction.is_terminal, Transaction.commit. intros H. now rewrite H.
Qed.

Lemma abort_on_terminal (txn : Transaction.t W) :
  Transaction.is_terminal txn = true ->
  Transaction.abort txn = (txn, Ret tt).
Proof.
  unfold Transaction.is_terminal, Transaction.abort. intros H. now rewrite H.
Qed.

Lemma commit_returns_terminal (txn : Transaction.t W) :
  snd (Transaction.commit txn) = Ret tt ->
  Transaction.is_terminal (fst (Transaction.commit txn)) = true.
Proof.
  unfold Transaction.commit, Transaction.is_terminal.
  destruct (Transaction._committed txn); simpl; [ discriminate | ].
  destruct (pqxx_commit (Transaction._txn txn)) as [w [[] | e]]; simpl;
    [ reflexivity | discriminate ].
Qed.

Lemma abort_returns_terminal (txn : Transaction.t W) :
  snd (Transaction.abort txn) = Ret tt ->
  Transaction.is_terminal (fst (Transaction.abort txn)) = true.
Proof.
  unfold Transaction.abort, Transaction.is_terminal.
  destruct (Transaction._committed txn) eqn:Hc; simpl; [ now rewrite Hc | ].
  destruct (pqxx_abort (Transaction._txn txn)) as [w [[] | e]]; simpl;
    [ reflexivity | discriminate ].
Qed.

End TransactionFacts.

(** C1, as the code has it.  When the backend commit throws, [commit()]
    throws [DatabaseError] with the backend's text and the completion flag
    stays clear: the transaction is still Open for the wrapper.  A later
    [commit()] or [exec()] is handed to the backend again, and the destructor
    still issues its backend abort. *)
Theorem Transaction_commit_backend_failure :
  forall (W : Type) (B : Backend W) (txn : Transaction.t W) (w : W) (e : exn),
    Transaction.is_terminal txn = false ->
    pqxx_commit (Transaction._txn txn) = (w, Throw e) ->
    let txn' := fst (Transaction.commit txn) in
    snd (Transaction.commit txn) = Throw (DatabaseError (what e)) /\
    txn' = {| Transaction._txn := w; Transaction._committed := false |} /\
    Transaction.is_terminal txn' = false /\
    Transaction._txn (fst (Transaction.commit txn')) = fst (pqxx_commit w) /\
    (forall sql, Transaction._txn (fst (Transaction.exec sql txn')) = fst (pqxx_exec sql w)) /\
    Transaction.dtor txn' = fst (pqxx_abort w).
Proof.
  intros W B txn w e Hopen Hfail txn'.
  assert (Hstep : Transaction.commit txn
                  = ({| Transaction._txn := w; Transaction._committed := false |},
                     Throw (DatabaseError (what e)))).
  { unfold Transaction.commit. unfold Transaction.is_terminal in Hopen.
    now rewrite Hopen, Hfail. }
  subst txn'. rewrite Hstep. simpl.
  repeat split.
  - unfold Transaction.commit. simpl.
    destruct (pqxx_commit w) as [w' [[] | e']]; reflexivity.
  - intros sql. unfold Transaction.exec. simpl.
    destruct (pqxx_exec sql w) as [w' r]. reflexivity.
Qed.

(** An Open transaction whose backend commit hits a serialization failure. *)
Lemma Transaction_commit_backend_failure_witness :
  let txn := Scripted.open_txn [Some Scripted.serialization_failure] in
  let txn' := fst (Transaction.commit txn) in
  snd (Transaction.commit txn) = Throw (DatabaseError "could not serialize access") /\
  txn' = {| Transaction._txn :=
              fst (pqxx_commit (Scripted.fresh [Some Scripted.serialization_failure]));
            Transaction._committed := false |} /\
  Transaction.is_terminal txn' = false /\
  Transaction._txn (fst (Transaction.commit txn'))
    = fst (pqxx_commit (fst (pqxx_commit (Scripted.fresh [Some Scripted.serialization_failure])))) /\
  (forall sql, Transaction._txn (fst (Transaction.exec sql txn'))
    = fst (pqxx_exec sql (fst (pqxx_commit (Scripted.fresh [Some Scripted.serialization_failure]))))) /\
  Transaction.dtor txn'
    = fst (pqxx_abort (fst (pqxx_commit (Scripted.fresh [Some Scripted.serialization_failure])))).
Proof.
  apply (Transaction_commit_backend_failure Scripted.session Scripted.backend
           (Scripted.open_txn [Some Scripted.serialization_failure])
           (fst (pqxx_commit (Scripted.fresh [Some Scripted.serialization_failure])))
           Scripted.serialization_failure).
  - reflexivity.
  - reflexivity.
Defined.

(** C1 as the spec words it fails: after a failed backend commit the
    transaction is not terminal, and a second [commit()] reaches the backend
    instead of being refused. *)
Lemma Transaction_commit_failure_not_terminal :
  let txn := Scripted.open_txn [Some Scripted.serialization_failure] in
  Transaction.is_terminal txn = false /\
  snd (pqxx_commit (Transaction._txn txn)) = Throw Scripted.serialization_failure /\
  ~ (is_DatabaseError (DatabaseError "could not serialize access") = true /\
     snd (Transaction.commit txn) = Throw (DatabaseError "could not serialize access") /\
     Transaction.is_terminal (fst (Transaction.commit txn)) = true) /\
  Scripted.log (Transaction._txn (fst (Transaction.commit (fst (Transaction.commit txn)))))
    = [Scripted.call_commit; Scripted.call_commit].
Proof.
  repeat split.
  intros (_ & _ & H). vm_compute in H. discriminate H.
Qed.

(** The wrapper's own part in a statement on a terminal transaction: the
    three statement-executing methods never look at the completion flag,
    they hand the statement to the handle, leave the flag as it is and throw
    exactly when the handle does. *)
Lemma exec_on_terminal :
  forall (W : Type) (B : Backend W) (txn : Transaction.t W),
    Transaction.is_terminal txn = true ->
    (forall sql,
        Transaction.exec sql txn
        = ({| Transaction._txn := fst (pqxx_exec sql (Transaction._txn txn));
              Transaction._committed := true |},
           Transaction.wrap (snd (pqxx_exec sql (Transaction._txn txn))))) /\
    (forall sql args,
        Transaction.exec_params sql args txn
        = ({| Transaction._txn := fst (pqxx_exec_params sql args (Transaction._txn txn));
              Transaction._committed := true |},
           Transaction.wrap (snd (pqxx_exec_params sql args (Transaction._txn txn))))) /\
    (forall name args,
        Transaction.exec_prepared name args txn
        = ({| Transaction._txn := fst (pqxx_exec_prepared name args (Transaction._txn txn));
              Transaction._committed := true |},
           Transaction.wrap (snd (pqxx_exec_prepared name args (Transaction._txn txn))))) /\
    (forall r, (exists e, Transaction.wrap r = Throw e) <-> (exists e, r = Throw e)).
Proof.
  intros W B txn Hterm. unfold Transaction.is_terminal in Hterm.
  repeat apply conj.
  - intros sql. unfold Transaction.exec. rewrite Hterm.
    destruct (pqxx_exec sql (Transaction._txn txn)); reflexivity.
  - intros sql args. unfold Transaction.exec_params. rewrite Hterm.
    destruct (pqxx_exec_params sql args (Transaction._txn txn)); reflexivity.
  - intros name args. unfold Transaction.exec_prepared. rewrite Hterm.
    destruct (pqxx_exec_prepared name args (Transaction._txn txn)); reflexivity.
  - intros r. apply wrap_throws.
Qed.

Section UseAfterTerminal.

Context {W : Type} {B : Backend W}.
Variable closed : W -> bool.
Hypothesis contract : handle_keeps_status closed.

(** A transaction is ended when the wrapper's flag is set and the handle is
    closed; statements leave an ended transaction as it is. *)
Lemma ended_after_commit (txn : Transaction.t W) :
  snd (Transaction.commit txn) = Ret tt ->
  Transaction.is_terminal (fst (Transaction.commit txn)) = true /\
  closed (Transaction._txn (fst (Transaction.commit txn))) = true.
Proof.
  intros Hret. split; [ now apply commit_returns_terminal | ].
  revert Hret. unfold Transaction.commit.
  destruct (Transaction._committed txn); simpl; [ discriminate | ].
  destruct (pqxx_commit (Transaction._txn txn)) as [w [[] | e]] eqn:Hcommit; simpl;
    [ | discriminate ].
  intros _. exact (@commit_closes W B closed contract _ _ Hcommit).
Qed.

Lemma ended_after_abort (txn : Transaction.t W) :
  Transaction.is_terminal txn = false ->
  snd (Transaction.abort txn) = Ret tt ->
  Transaction.is_terminal (fst (Transaction.abort txn)) = true /\
  closed (Transaction._txn (fst (Transaction.abort txn))) = true.
Proof.
  intros Hopen Hret. split; [ now apply abort_returns_terminal | ].
  revert Hret. unfold Transaction.abort. unfold Transaction.is_terminal in Hopen.
  rewrite Hopen. simpl.
  destruct (pqxx_abort (Transaction._txn txn)) as [w [[] | e]] eqn:Habort; simpl;
    [ | discriminate ].
  intros _. exact (@abort_closes W B closed contract _ _ Habort).
Qed.

Lemma terminal_as_recorded (txn : Transaction.t W) :
  Transaction.is_terminal txn = true ->
  {| Transaction._txn := Transaction._txn txn; Transaction._committed := true |} = txn.
Proof.
  destruct txn as [w flag]. unfold Transaction.is_terminal. simpl.
  intros Hflag. now subst flag.
Qed.

End UseAfterTerminal.


(** The status-keeping session honours the contract. *)
Lemma Tracked_keeps_status : handle_keeps_status Tracked.closed.
Proof.
  constructor.
  - intros [h wire] w'. simpl. unfold Tracked.commit, Tracked.closed. simpl.
    destruct h; simpl.
    + destruct (Scripted.answer Scripted.call_commit tt wire) as [wire' [[] | e]];
        intros H; inversion H; reflexivity.
    + intros H. inversion H. reflexivity.
    + unfold Tracked.refuse. discriminate.
  - intros [h wire] w'. simpl. unfold Tracked.abort, Tracked.closed. simpl.
    destruct h; simpl.
    + destruct (Scripted.answer Scripted.call_abort tt wire) as [wire' r];
        intros H; inversion H; reflexivity.
    + unfold Tracked.refuse. discriminate.
    + intros H. inversion H. reflexivity.
  - intros sql w Hclosed. simpl. unfold Tracked.statement. rewrite Hclosed.
    eexists. reflexivity.
  - intros sql args w Hclosed. simpl. unfold Tracked.statement. rewrite Hclosed.
    eexists. reflexivity.
  - intros name args w Hclosed. simpl. unfold Tracked.statement. rewrite Hclosed.
    eexists. reflexivity.
Qed.


(** C4, as the code has it.  A second [commit()] after a successful one
    throws [std::runtime_error("Transaction already committed")], which no
    handler for [DatabaseError] catches, and leaves the transaction and the
    backend untouched.  An [abort()] that follows an [abort()] that returned
    is a no-op returning normally. *)
Theorem Transaction_commit_twice_abort_twice :
  forall (W : Type) (B : Backend W) (tc ta : Transaction.t W),
    snd (Transaction.commit tc) = Ret tt ->
    snd (Transaction.abort ta) = Ret tt ->
    let tc1 := fst (Transaction.commit tc) in
    let ta1 := fst (Transaction.abort ta) in
    Transaction.commit tc1
    = (tc1, Throw (mk_exn std_runtime_error "Transaction already committed")) /\
    is_DatabaseError (mk_exn std_runtime_error "Transaction already committed") = false /\
    Transaction.abort ta1 = (ta1, Ret tt).
Proof.
  intros W B tc ta Hc Ha tc1 ta1. repeat split.
  - apply commit_on_terminal. now apply commit_returns_terminal.
  - apply abort_on_terminal. now apply abort_returns_terminal.
Qed.

(** Two transactions on the scripted session, one committed twice, one
    aborted twice. *)
Lemma Transaction_commit_twice_abort_twice_witness :
  let tc1 := fst (Transaction.commit (Scripted.open_txn [])) in
  let ta1 := fst (Transaction.abort (Scripted.open_txn [])) in
  Transaction.commit tc1
  = (tc1, Throw (mk_exn std_runtime_error "Transaction already committed")) /\
  is_DatabaseError (mk_exn std_runtime_error "Transaction already committed") = false /\
  Transaction.abort ta1 = (ta1, Ret tt).
Proof.
  apply (Transaction_commit_twice_abort_twice Scripted.session Scripted.backend
           (Scripted.open_txn []) (Scripted.open_txn [])).
  - reflexivity.
  - reflexivity.
Defined.

(** C4 as the spec words it fails: the error of the second [commit()] is not
    in the [DatabaseError] hierarchy; and the first [abort()] of an Open
    transaction is a backend call, whose exception leaves as it is. *)
Lemma Transaction_double_commit_not_DatabaseError :
  let tc1 := fst (Transaction.commit (Scripted.open_txn [])) in
  snd (Transaction.commit (Scripted.open_txn [])) = Ret tt /\
  ~ (exists e, snd (Transaction.commit tc1) = Throw e /\ is_DatabaseError e = true) /\
  snd (Transaction.abort (Scripted.open_txn [Some Scripted.lost_connection]))
  = Throw Scripted.lost_connection.
Proof.
  split; [ reflexivity | split; [ | reflexivity ] ].
  intros [e [H Hdb]]. vm_compute in H. inversion H; subst. discriminate Hdb.
Qed.

(** C10. The one flag does not tell Committed from Aborted: [abort()] after
    a successful [commit()] returns normally and changes nothing, and
    [commit()] after an [abort()] throws the very error of a double commit
    and changes nothing. *)
Theorem Transaction_single_flag_merges_terminal_states :
  forall (W : Type) (B : Backend W) (tc ta : Transaction.t W),
    snd (Transaction.commit tc) = Ret tt ->
    snd (Transaction.abort ta) = Ret tt ->
    let tc1 := fst (Transaction.commit tc) in
    let ta1 := fst (Transaction.abort ta) in
    Transaction.abort tc1 = (tc1, Ret tt) /\
    Transaction.commit ta1
    = (ta1, Throw (mk_exn std_runtime_error "Transaction already committed")) /\
    snd (Transaction.commit ta1) = snd (Transaction.commit tc1) /\
    Transaction._committed tc1 = Transaction._committed ta1.
Proof.
  intros W B tc ta Hc Ha tc1 ta1.
  pose proof (commit_returns_terminal tc Hc) as Htc.
  pose proof (abort_returns_terminal ta Ha) as Hta.
  fold tc1 in Htc. fold ta1 in Hta.
  repeat split.
  - now apply abort_on_terminal.
  - now apply commit_on_terminal.
  - now rewrite (commit_on_terminal ta1 Hta), (commit_on_terminal tc1 Htc).
  - unfold Transaction.is_terminal in Htc, Hta. now rewrite Htc, Hta.
Qed.

(** On the scripted session the log shows that neither call reached the
    backend. *)
Lemma Transaction_single_flag_merges_terminal_states_witness :
  let tc1 := fst (Transaction.commit (Scripted.open_txn [])) in
  let ta1 := fst (Transaction.abort (Scripted.open_txn [])) in
  (Transaction.abort tc1 = (tc1, Ret tt) /\
   Transaction.commit ta1
   = (ta1, Throw (mk_exn std_runtime_error "Transaction already committed")) /\
   snd (Transaction.commit ta1) = snd (Transaction.commit tc1) /\
   Transaction._committed tc1 = Transaction._committed ta1) /\
  Scripted.log (Transaction._txn (fst (Transaction.abort tc1))) = [Scripted.call_commit] /\
  Scripted.log (Transaction._txn (fst (Transaction.commit ta1))) = [Scripted.call_abort].
Proof.
  split.
  - apply (Transaction_single_flag_merges_terminal_states Scripted.session Scripted.backend
             (Scripted.open_txn []) (Scripted.open_txn [])).
    + reflexivity.
    + reflexivity.
  - split; reflexivity.
Defined.

(** ** Database *)

Section DatabaseFacts.

Context {W : Type} {B : Backend W}.

Lemma begin_transaction_open (db : Database.t W) (conn w : W) :
  Database._conn db = Some conn ->
  pqxx_is_open conn = true ->
  pqxx_work conn = (w, Ret tt) ->
  Database.begin_transaction db
  = ({| Database._conn := Some w |},
     Ret {| Transaction._txn := w; Transaction._committed := false |}).
Proof.
  intros Hconn Hopen Hwork.
  unfold Database.begin_transaction, Database.is_open, Transaction.ctor.
  now rewrite Hconn, Hopen, Hwork.
Qed.

(** [autocommit] around a method that hands one statement to the backend
    and translates its outcome. *)
Lemma autocommit_runs_spec
    (run : Transaction.t W -> Transaction.t W * outcome Result.t)
    (stmt : W -> W * outcome pqxx_result)
    (db : Database.t W) (conn w : W) :
  (forall txn, run txn
               = ({| Transaction._txn := fst (stmt (Transaction._txn txn));
                     Transaction._committed := Transaction._committed txn |},
                  Transaction.wrap (snd (stmt (Transaction._txn txn))))) ->
  Database._conn db = Some conn ->
  pqxx_is_open conn = true ->
  pqxx_work conn = (w, Ret tt) ->
  Database.autocommit run db = Database.autocommit_spec stmt w.
Proof.
  intros Hrun Hconn Hopen Hwork.
  unfold Database.autocommit, Database.autocommit_spec.
  rewrite (begin_transaction_open db conn w Hconn Hopen Hwork), Hrun. simpl.
  destruct (stmt w) as [w1 [res | e]]; simpl.
  - unfold Transaction.commit. simpl.
    destruct (pqxx_commit w1) as [w2 [[] | e]]; reflexivity.
  - reflexivity.
Qed.

End DatabaseFacts.

(** C9. On an open connection whose transaction begins, [exec],
    [exec_params] and [exec_prepared] hand the statement to the backend once;
    if it goes through they commit and return its Result; if it fails they
    abort the implicit transaction and the caller gets the error of the
    failed statement, its class and text untouched by whatever the abort
    does. *)
Theorem Database_exec_autocommits :
  forall (W : Type) (B : Backend W) (db : Database.t W) (conn w : W),
    Database._conn db = Some conn ->
    pqxx_is_open conn = true ->
    pqxx_work conn = (w, Ret tt) ->
    (forall sql, Database.exec sql db = Database.autocommit_spec (pqxx_exec sql) w) /\
    (forall sql args,
        Database.exec_params sql args db
        = Database.autocommit_spec (pqxx_exec_params sql args) w) /\
    (forall name args,
        Database.exec_prepared name args db
        = Database.autocommit_spec (pqxx_exec_prepared name args) w).
Proof.
  intros W B db conn w Hconn Hopen Hwork.
  repeat apply conj; intros;
    apply (autocommit_runs_spec _ _ db conn w); try assumption;
    intros txn;
    [ unfold Transaction.exec; destruct (pqxx_exec sql (Transaction._txn txn))
    | unfold Transaction.exec_params;
      destruct (pqxx_exec_params sql args (Transaction._txn txn))
    | unfold Transaction.exec_prepared;
      destruct (pqxx_exec_prepared name args (Transaction._txn txn)) ];
    reflexivity.
Qed.

(** [SELECT 1/0] on a session where the rollback fails as well: the caller
    sees the [QueryError] of the statement, and the backend has seen the
    transaction begin, the statement and the abort. *)
Lemma Database_exec_autocommits_witness :
  let db := Scripted.live_db
              [None; Some Scripted.division_by_zero; Some Scripted.lost_connection] in
  Database.exec "SELECT 1/0" db
  = Database.autocommit_spec (pqxx_exec "SELECT 1/0")
      (fst (pqxx_work
              (Scripted.fresh
                 [None; Some Scripted.division_by_zero; Some Scripted.lost_connection]))) /\
  snd (Database.exec "SELECT 1/0" db)
  = Throw (QueryError "ERROR:  division by zero") /\
  option_map Scripted.log (Database._conn (fst (Database.exec "SELECT 1/0" db)))
  = Some [Scripted.call_work; Scripted.call_exec "SELECT 1/0"; Scripted.call_abort] /\
  snd (Database.exec "SELECT 1" (Scripted.live_db []))
  = Ret (Result.Result Scripted.sample_result) /\
  option_map Scripted.log (Database._conn (fst (Database.exec "SELECT 1" (Scripted.live_db []))))
  = Some [Scripted.call_work; Scripted.call_exec "SELECT 1"; Scripted.call_commit].
Proof.
  split.
  - apply (Database_exec_autocommits Scripted.session Scripted.backend
             (Scripted.live_db
                [None; Some Scripted.division_by_zero; Some Scripted.lost_connection])
             (Scripted.fresh
                [None; Some Scripted.division_by_zero; Some Scripted.lost_connection])
             (fst (pqxx_work
                     (Scripted.fresh
                        [None; Some Scripted.division_by_zero; Some Scripted.lost_connection])))).
    + reflexivity.
    + reflexivity.
    + reflexivity.
  - repeat split.
Defined.

(** ** ConnectionPool *)

Lemma size_incr_below (n m : Z) :
  0 <= n < m -> m <= SIZE_MAX -> size_incr n = n + 1.
Proof.
  unfold size_incr, SIZE_MAX. intros Hn Hm. apply Z.mod_small. lia.
Qed.

Lemma size_decr_positive (n : Z) :
  0 < n <= SIZE_MAX -> size_decr n = n - 1.
Proof.
  unfold size_decr, SIZE_MAX. intros Hn. apply Z.mod_small. lia.
Qed.

Lemma size_decr_zero : size_decr 0 = SIZE_MAX.
Proof. reflexivity. Qed.

Lemma pop_back_empty {A : Type} (v : list A) : pop_back v = None -> v = [].
Proof.
  destruct v as [ | x v]; [ reflexivity | ]. simpl.
  destruct (pop_back v) as [[init b] | ]; discriminate.
Qed.

Lemma pop_back_length {A : Type} (v init : list A) (b : A) :
  pop_back v = Some (init, b) -> List.length v = S (List.length init).
Proof.
  revert init b. induction v as [ | x v IH]; intros init b; simpl; [ discriminate | ].
  destruct (pop_back v) as [[init' b'] | ] eqn:Hpop; intros H; inversion H; subst; simpl.
  - f_equal. now apply (IH init' b).
  - apply pop_back_empty in Hpop. now subst.
Qed.

Lemma push_back_length {A : Type} (v : list A) (x : A) :
  List.length (push_back v x) = S (List.length v).
Proof.
  unfold push_back. rewrite length_app. simpl. lia.
Qed.

Section ConnectionPoolFacts.

Context {W : Type} {B : Backend W}.

Lemma accounted_within_bounds (N : Z) (p : ConnectionPool.t W) (leased : nat) :
  ConnectionPool.accounted N p leased ->
  ConnectionPool.within_bounds p /\ ConnectionPool._maxConnections p = N.
Proof.
  unfold ConnectionPool.accounted, ConnectionPool.within_bounds. intros [Hmax Hcount].
  rewrite Hmax. repeat split; lia.
Qed.

Lemma get_connection_accounted (N : Z) (connect : string -> outcome W)
      (p : ConnectionPool.t W) (leased : nat) :
  N <= SIZE_MAX ->
  ConnectionPool.accounted N p leased ->
  match ConnectionPool.get_connection connect p with
  | (p', Ret (Some _)) => ConnectionPool.accounted N p' (S leased)
  | (p', _) => ConnectionPool.accounted N p' leased
  end.
Proof.
  unfold ConnectionPool.accounted, ConnectionPool.get_connection. intros HN [Hmax Hcount].
  destruct (pop_back (ConnectionPool._pool p)) as [[rest conn] | ] eqn:Hpop.
  - apply pop_back_length in Hpop. simpl. split; [ assumption | lia ].
  - apply pop_back_empty in Hpop.
    destruct (ConnectionPool._currentConnections p <? ConnectionPool._maxConnections p)
      eqn:Hroom.
    + apply Z.ltb_lt in Hroom. rewrite Hpop in *. simpl in Hcount.
      assert (Hinc : size_incr (ConnectionPool._currentConnections p)
                     = ConnectionPool._currentConnections p + 1)
        by (apply (size_incr_below _ N); lia).
      unfold Database.ctor.
      destruct (connect (ConnectionPool._connectionString p)) as [w | e]; simpl;
        rewrite Hinc; simpl; split; try assumption; lia.
    + split; assumption.
Qed.

Lemma return_connection_accounted (N : Z) (db : Database.t W)
      (p : ConnectionPool.t W) (leased : nat) :
  N <= SIZE_MAX ->
  ConnectionPool.accounted N p (S leased) ->
  ConnectionPool.accounted N (ConnectionPool.return_connection (Some db) p) leased.
Proof.
  unfold ConnectionPool.accounted. intros HN [Hmax Hcount].
  assert (Hdec : size_decr (ConnectionPool._currentConnections p)
                 = ConnectionPool._currentConnections p - 1)
    by (apply size_decr_positive; lia).
  unfold ConnectionPool.return_connection, ConnectionPool.drop.
  destruct (ConnectionPool.is_dead (Some db)); simpl.
  - rewrite Hdec. split; [ assumption | lia ].
  - destruct (Z.of_nat (List.length (ConnectionPool._pool p))
              <? ConnectionPool._maxConnections p); simpl.
    + rewrite push_back_length. split; [ assumption | lia ].
    + rewrite Hdec. split; [ assumption | lia ].
Qed.

Lemma disciplined_states_accounted (N : Z) (ops : list ConnectionPool.op) :
  N <= SIZE_MAX ->
  forall (p : ConnectionPool.t W) (leased : nat),
    ConnectionPool.accounted N p leased ->
    ConnectionPool.disciplined ops p leased = true ->
    Forall (fun q => ConnectionPool.within_bounds q /\ ConnectionPool._maxConnections q = N)
           (ConnectionPool.states ops p).
Proof.
  intros HN. induction ops as [ | o ops IH]; intros p leased Hacc Hdisc; simpl.
  - constructor; [ now apply (accounted_within_bounds N p leased) | constructor ].
  - constructor; [ now apply (accounted_within_bounds N p leased) | ].
    destruct o as [connect | conn]; simpl in *.
    + pose proof (get_connection_accounted N connect p leased HN Hacc) as Hstep.
      destruct (ConnectionPool.get_connection connect p) as [p' [[db | ] | e]]; simpl;
        eapply IH; eassumption.
    + destruct conn as [db | ]; [ | discriminate ].
      destruct leased as [ | l]; [ discriminate | ].
      apply (IH _ l); [ | assumption ].
      now apply return_connection_accounted.
Qed.

Lemma get_connection_exhausted (connect : string -> outcome W) (p : ConnectionPool.t W) :
  ConnectionPool._pool p = [] ->
  ConnectionPool._currentConnections p = ConnectionPool._maxConnections p ->
  ConnectionPool.get_connection connect p = (p, Ret None).
Proof.
  intros Hpool Hfull. unfold ConnectionPool.get_connection.
  rewrite Hpool, Hfull. simpl. now rewrite Z.ltb_irrefl.
Qed.

End ConnectionPoolFacts.

(** C2, where the code departs from it.  With the idle store empty and the
    live count below capacity, a [Database] constructor that throws does
    reach the caller as [ConnectionError], but the count was raised before
    the construction and stays raised: it is one more after the call than
    before it. *)
Theorem ConnectionPool_get_connection_failed_construction :
  forall (W : Type) (B : Backend W) (p : ConnectionPool.t W)
         (connect : string -> outcome W) (e : exn),
    ConnectionPool._pool p = [] ->
    0 <= ConnectionPool._currentConnections p < ConnectionPool._maxConnections p ->
    ConnectionPool._maxConnections p <= SIZE_MAX ->
    connect (ConnectionPool._connectionString p) = Throw e ->
    snd (ConnectionPool.get_connection connect p) = Throw (ConnectionError (what e)) /\
    ConnectionPool._currentConnections (fst (ConnectionPool.get_connection connect p))
    = ConnectionPool._currentConnections p + 1 /\
    ConnectionPool._pool (fst (ConnectionPool.get_connection connect p)) = [].
Proof.
  intros W B p connect e Hpool Hroom Hmax Hfail.
  unfold ConnectionPool.get_connection, Database.ctor.
  rewrite Hpool, Hfail. simpl.
  replace (ConnectionPool._currentConnections p <? ConnectionPool._maxConnections p)
    with true by (symmetry; apply Z.ltb_lt; lia).
  simpl. repeat split.
  apply (size_incr_below _ (ConnectionPool._maxConnections p)); assumption.
Qed.

(** A fresh pool of capacity 1 whose server refuses the connection: the
    count reads 1 with no connection alive, and the next call reports the
    pool exhausted. *)
Lemma ConnectionPool_get_connection_failed_construction_witness :
  let p := ConnectionPool.ctor (W := Scripted.session) "host=db" 1 in
  let p' := fst (ConnectionPool.get_connection Scripted.refuse p) in
  (snd (ConnectionPool.get_connection Scripted.refuse p)
   = Throw (ConnectionError "connection refused") /\
   ConnectionPool._currentConnections p' = ConnectionPool._currentConnections p + 1 /\
   ConnectionPool._pool p' = []) /\
  ConnectionPool._currentConnections p = 0 /\
  ConnectionPool._currentConnections p' = 1 /\
  snd (ConnectionPool.get_connection Scripted.accept p') = Ret None.
Proof.
  split.
  - apply (ConnectionPool_get_connection_failed_construction
             Scripted.session Scripted.backend
             (ConnectionPool.ctor (W := Scripted.session) "host=db" 1)
             Scripted.refuse
             (mk_exn pqxx_broken_connection "connection refused")).
    + reflexivity.
    + simpl. lia.
    + unfold SIZE_MAX. simpl. lia.
    + reflexivity.
  - repeat split.
Defined.

(** C5, as the code has it.  On a pool of capacity [N] whose callers keep to
    the lease discipline (every [return_connection] gives back a non-null
    connection obtained from an earlier [get_connection] and not returned
    since), the live count stays within [[0, N]] and the idle store never
    holds more than [N] connections, in every state the sequence goes
    through; and whenever the idle store is empty and the live count equals
    the capacity, [get_connection] returns null at once, leaving the pool as
    it is. *)
Theorem ConnectionPool_bounds_under_lease_discipline :
  forall (W : Type) (B : Backend W) (connectionString : string) (N : Z)
         (ops : list ConnectionPool.op),
    0 <= N <= SIZE_MAX ->
    ConnectionPool.disciplined ops (ConnectionPool.ctor connectionString N) 0 = true ->
    Forall (fun p => ConnectionPool.within_bounds p /\ ConnectionPool._maxConnections p = N)
           (ConnectionPool.states ops (ConnectionPool.ctor connectionString N)) /\
    (forall (p : ConnectionPool.t W) (connect : string -> outcome W),
        ConnectionPool._pool p = [] ->
        ConnectionPool._currentConnections p = ConnectionPool._maxConnections p ->
        ConnectionPool.get_connection connect p = (p, Ret None)).
Proof.
  intros W B cs N ops HN Hdisc. split.
  - apply (disciplined_states_accounted N ops (proj2 HN)
             (ConnectionPool.ctor cs N) 0%nat); [ | assumption ].
    unfold ConnectionPool.accounted. simpl. split; [ reflexivity | lia ].
  - intros p connect. apply get_connection_exhausted.
Qed.

(** Capacity 2: two leases, a third call that finds the pool exhausted, one
    connection returned, and the third lease going through. *)
Lemma ConnectionPool_bounds_under_lease_discipline_witness :
  let ops := [ConnectionPool.op_get Scripted.accept;
              ConnectionPool.op_get Scripted.accept;
              ConnectionPool.op_get Scripted.accept;
              ConnectionPool.op_return (Some (Scripted.live_db []));
              ConnectionPool.op_get Scripted.accept] in
  Forall (fun p => ConnectionPool.within_bounds p /\ ConnectionPool._maxConnections p = 2)
         (ConnectionPool.states ops (ConnectionPool.ctor "host=db" 2)) /\
  (forall (p : ConnectionPool.t Scripted.session) (connect : string -> outcome Scripted.session),
      ConnectionPool._pool p = [] ->
      ConnectionPool._currentConnections p = ConnectionPool._maxConnections p ->
      ConnectionPool.get_connection connect p = (p, Ret None)).
Proof.
  apply (ConnectionPool_bounds_under_lease_discipline Scripted.session Scripted.backend
           "host=db" 2).
  - unfold SIZE_MAX. simpl. lia.
  - reflexivity.
Defined.

(** C5 as the spec words it fails: handing a null connection to a fresh pool
    of capacity 1 wraps the live count around to [SIZE_MAX]. *)
Lemma ConnectionPool_live_count_wraps :
  let p := ConnectionPool.ctor (W := Scripted.session) "host=db" 1 in
  ConnectionPool._currentConnections (ConnectionPool.return_connection None p)
  = 18446744073709551615 /\
  ~ Forall ConnectionPool.within_bounds
      (ConnectionPool.states [ConnectionPool.op_return None] p).
Proof.
  split; [ reflexivity | ].
  intros H. inversion H as [ | p0 l0 _ Htail]; subst.
  inversion Htail as [ | p1 l1 [[_ Hle] _] _]; subst.
  vm_compute in Hle. apply Hle. reflexivity.
Qed.

(** C6. Returning a connection that is null or not open takes one off the
    live count, in [size_t] arithmetic, and leaves the idle store and the
    rest of the pool as they were. *)
Theorem ConnectionPool_return_dead_connection :
  forall (W : Type) (B : Backend W) (p : ConnectionPool.t W)
         (conn : option (Database.t W)),
    ConnectionPool.is_dead conn = true ->
    0 <= ConnectionPool._currentConnections p <= SIZE_MAX ->
    let p' := ConnectionPool.return_connection conn p in
    ConnectionPool._currentConnections p'
    = (if ConnectionPool._currentConnections p =? 0 then SIZE_MAX
       else ConnectionPool._currentConnections p - 1) /\
    ConnectionPool._pool p' = ConnectionPool._pool p /\
    ConnectionPool._maxConnections p' = ConnectionPool._maxConnections p /\
    ConnectionPool._connectionString p' = ConnectionPool._connectionString p.
Proof.
  intros W B p conn Hdead Hrange p'. subst p'.
  unfold ConnectionPool.return_connection. rewrite Hdead. simpl.
  repeat split.
  destruct (ConnectionPool._currentConnections p =? 0) eqn:Hzero.
  - apply Z.eqb_eq in Hzero. rewrite Hzero. apply size_decr_zero.
  - apply Z.eqb_neq in Hzero. apply size_decr_positive. lia.
Qed.

(** A pool with one lease out gets back a closed connection, and another a
    null one. *)
Lemma ConnectionPool_return_dead_connection_witness :
  let p := fst (ConnectionPool.get_connection Scripted.accept
                  (ConnectionPool.ctor "host=db" 2)) in
  let closed := Some (Database.close (Scripted.live_db [])) in
  (ConnectionPool._currentConnections (ConnectionPool.return_connection closed p)
   = (if ConnectionPool._currentConnections p =? 0 then SIZE_MAX
      else ConnectionPool._currentConnections p - 1) /\
   ConnectionPool._pool (ConnectionPool.return_connection closed p) = ConnectionPool._pool p /\
   ConnectionPool._maxConnections (ConnectionPool.return_connection closed p)
   = ConnectionPool._maxConnections p /\
   ConnectionPool._connectionString (ConnectionPool.return_connection closed p)
   = ConnectionPool._connectionString p) /\
  ConnectionPool._currentConnections p = 1 /\
  ConnectionPool._currentConnections (ConnectionPool.return_connection closed p) = 0 /\
  ConnectionPool._currentConnections (ConnectionPool.return_connection None p) = 0.
Proof.
  split.
  - apply (ConnectionPool_return_dead_connection Scripted.session Scripted.backend
             (fst (ConnectionPool.get_connection Scripted.accept
                     (ConnectionPool.ctor "host=db" 2)))
             (Some (Database.close (Scripted.live_db [])))).
    + reflexivity.
    + vm_compute. split; discriminate.
  - repeat split.
Defined.

(** * Further properties *)

(** ** Row accessors *)

(** X1. On a field that is inside the row and not NULL, [get_optional<T>]
    is [get<T>] with the value wrapped: the same value, or the same
    conversion error. *)
Theorem Row_get_optional_of_present_field :
  forall (size_type_unsigned : bool) (T : Type) (from_string : string -> option T)
         (r : Row.t) (col : Z),
    Row.is_int col = true ->
    0 <= col < Row.size r ->
    Row.is_null size_type_unsigned r col = Some false ->
    Row.get_optional size_type_unsigned from_string r col
    = option_map (fun o => v <- o ;; Ret (Some v))
        (Row.get size_type_unsigned from_string r col).
Proof.
  intros u T from_string r col Hint [Hlo Hhi] Hnull.
  destruct (index_inside u r col Hint (conj Hlo Hhi)) as [f Hf].
  unfold Row.is_null, Row.get, Row.get_optional in *.
  rewrite (to_size_type_nonneg_int u col Hint Hlo) in *.
  rewrite (geb_false_lt _ _ Hhi). rewrite Hf in *.
  replace (col <? Row.size r) with true in Hnull by (symmetry; now apply Z.ltb_lt).
  destruct f as [raw | ]; simpl in *; [ reflexivity | discriminate ].
Qed.

(** The id column of the sample row. *)
Lemma Row_get_optional_of_present_field_witness :
  Row.get_optional false Scripted.int_from_string (Row.Row Scripted.sample_row) 0
  = option_map (fun o => v <- o ;; Ret (Some v))
      (Row.get false Scripted.int_from_string (Row.Row Scripted.sample_row) 0) /\
  Row.get_optional false Scripted.int_from_string (Row.Row Scripted.sample_row) 0
  = Some (Ret (Some 1)).
Proof.
  split.
  - apply (Row_get_optional_of_present_field false Z Scripted.int_from_string
             (Row.Row Scripted.sample_row) 0).
    + reflexivity.
    + unfold Row.size. simpl. lia.
    + reflexivity.
  - reflexivity.
Defined.

(** X2. When libpqxx resolves a column name to a position inside the row,
    the by-name overloads of [get], [get_optional] and [is_null] do exactly
    what the by-index overloads do at that position. *)
Theorem Row_name_access_is_index_access :
  forall (size_type_unsigned : bool)
         (column_number : pqxx_row -> string -> option nat)
         (T : Type) (from_string : string -> option T)
         (r : Row.t) (colName : string) (i : nat),
    column_number (Row._row r) colName = Some i ->
    Z.of_nat i < Row.size r ->
    Z.of_nat i < 2 ^ 31 ->
    Row.get size_type_unsigned from_string r (Z.of_nat i)
    = Some (Row.get_name column_number from_string r colName) /\
    Row.get_optional size_type_unsigned from_string r (Z.of_nat i)
    = Some (Row.get_optional_name column_number from_string r colName) /\
    option_map Ret (Row.is_null size_type_unsigned r (Z.of_nat i))
    = Some (Row.is_null_name column_number r colName).
Proof.
  intros u cn T from_string r colName i Hres Hin Hint31.
  assert (Hint : Row.is_int (Z.of_nat i) = true).
  { unfold Row.is_int. apply andb_true_iff. split.
    - apply Z.leb_le. lia.
    - now apply Z.ltb_lt. }
  assert (Hlo : 0 <= Z.of_nat i) by lia.
  unfold Row.get, Row.get_optional, Row.is_null, Row.index,
    Row.get_name, Row.get_optional_name, Row.is_null_name, Row.index_name.
  rewrite (to_size_type_nonneg_int u _ Hint Hlo), Hres.
  rewrite (geb_false_lt _ _ Hin).
  replace (Z.of_nat i <? Row.size r) with true by (symmetry; now apply Z.ltb_lt).
  replace (Z.of_nat i <? 0) with false by (symmetry; apply Z.ltb_ge; lia).
  rewrite Nat2Z.id.
  destruct (nth_error (row_fields (Row._row r)) i) as [f | ] eqn:Hnth.
  - simpl. repeat split.
  - apply nth_error_None in Hnth. unfold Row.size in Hin. lia.
Qed.

(** The age column of the sample row is column 1. *)
Lemma Row_name_access_is_index_access_witness :
  Row.get true Scripted.int_from_string (Row.Row Scripted.sample_row) (Z.of_nat 1)
  = Some (Row.get_name Scripted.column_number Scripted.int_from_string
            (Row.Row Scripted.sample_row) "age") /\
  Row.get_optional true Scripted.int_from_string (Row.Row Scripted.sample_row) (Z.of_nat 1)
  = Some (Row.get_optional_name Scripted.column_number Scripted.int_from_string
            (Row.Row Scripted.sample_row) "age") /\
  option_map Ret (Row.is_null true (Row.Row Scripted.sample_row) (Z.of_nat 1))
  = Some (Row.is_null_name Scripted.column_number (Row.Row Scripted.sample_row) "age").
Proof.
  apply (Row_name_access_is_index_access true Scripted.column_number Z
           Scripted.int_from_string (Row.Row Scripted.sample_row) "age" 1%nat).
  - reflexivity.
  - unfold Row.size. simpl. lia.
  - simpl. lia.
Defined.

(** ** Result *)

Lemma nth_error_inside {A : Type} (l : list A) (n : nat) :
  (n < List.length l)%nat -> exists x, nth_error l n = Some x.
Proof.
  intros H. destruct (nth_error l n) as [x | ] eqn:Hn.
  - now exists x.
  - apply nth_error_None in Hn. lia.
Qed.

Lemma at_is_nth_error (res : Result.t) (rowNum : N) :
  Result.at_ res rowNum
  = match nth_error (result_rows (Result._result res)) (N.to_nat rowNum) with
    | Some r => Ret (Row.Row r)
    | None => Throw (mk_exn std_out_of_range "Row index out of range")
    end.
Proof.
  unfold Result.at_, Result.index, Result.size.
  destruct (N.of_nat (List.length (result_rows (Result._result res))) <=? rowNum)%N
    eqn:Hguard.
  - apply N.leb_le in Hguard.
    assert (Hnone : nth_error (result_rows (Result._result res)) (N.to_nat rowNum) = None)
      by (apply nth_error_None; lia).
    now rewrite Hnone.
  - apply N.leb_gt in Hguard.
    destruct (nth_error_inside (result_rows (Result._result res)) (N.to_nat rowNum))
      as [r Hr]; [ lia | ].
    now rewrite Hr.
Qed.

(** X3. [at] and [operator[]] hand out row [rowNum] of the result when there
    is one and throw [std::out_of_range] otherwise, which happens exactly
    when [rowNum >= size()]; the error is not a [DatabaseError]. *)
Theorem Result_at_bounds :
  forall (res : Result.t) (rowNum : N),
    Result.at_ res rowNum
    = match nth_error (result_rows (Result._result res)) (N.to_nat rowNum) with
      | Some r => Ret (Row.Row r)
      | None => Throw (mk_exn std_out_of_range "Row index out of range")
      end /\
    Result.index res rowNum = Result.at_ res rowNum /\
    ((exists e, Result.at_ res rowNum = Throw e) <-> (Result.size res <= rowNum)%N) /\
    is_DatabaseError (mk_exn std_out_of_range "Row index out of range") = false.
Proof.
  intros res rowNum. unfold Result.at_, Result.index, Result.size.
  destruct (N.of_nat (List.length (result_rows (Result._result res))) <=? rowNum)%N
    eqn:Hguard.
  - apply N.leb_le in Hguard.
    assert (Hnone : nth_error (result_rows (Result._result res)) (N.to_nat rowNum) = None)
      by (apply nth_error_None; lia).
    rewrite Hnone. repeat split.
    + intros _. exact Hguard.
    + intros _. eexists. reflexivity.
  - apply N.leb_gt in Hguard.
    destruct (nth_error_inside (result_rows (Result._result res)) (N.to_nat rowNum))
      as [r Hr]; [ lia | ].
    rewrite Hr. repeat split.
    + intros [e He]. discriminate He.
    + intros Hle. lia.
Qed.

(** X4. [front] throws [std::runtime_error("Result is empty")] exactly on an
    empty result, where [front_optional] returns the empty optional; on any
    other result both hand out the row that [at(0)] hands out. *)
Theorem Result_front_and_front_optional :
  forall (res : Result.t),
    (Result.empty res = true <->
     Result.front res = Throw (mk_exn std_runtime_error "Result is empty")) /\
    (Result.empty res = true <-> Result.front_optional res = None) /\
    (Result.empty res = true <-> Result.size res = 0%N) /\
    Result.front res
    = match Result.at_ res 0 with
      | Ret r => Ret r
      | Throw _ => Throw (mk_exn std_runtime_error "Result is empty")
      end /\
    Result.front_optional res
    = match Result.at_ res 0 with
      | Ret r => Some r
      | Throw _ => None
      end.
Proof.
  intros [[rows affected]].
  unfold Result.empty, Result.front, Result.front_optional, Result.at_,
    Result.index, Result.size.
  destruct rows as [ | r rows ]; simpl.
  - repeat split; intros; try reflexivity; discriminate.
  - repeat split; intros; try discriminate; lia.
Qed.

Section ToVectorFacts.

Variable T : Type.

Lemma to_vector_loop_pure (f : Row.t -> T) (rows : list pqxx_row) (vec : list T) :
  Result.to_vector_loop (fun r => Ret (f r)) rows vec
  = Ret (vec ++ map (fun r => f (Row.Row r)) rows)%list.
Proof.
  revert vec. induction rows as [ | r rows IH]; intros vec; simpl.
  - now rewrite app_nil_r.
  - rewrite IH, <- app_assoc. reflexivity.
Qed.

Lemma to_vector_loop_first_throw (converter : Row.t -> outcome T)
      (pre post : list pqxx_row) (r : pqxx_row) (e : exn) (vec : list T) :
  (forall x, In x pre -> exists v, converter (Row.Row x) = Ret v) ->
  converter (Row.Row r) = Throw e ->
  Result.to_vector_loop converter (pre ++ r :: post)%list vec = Throw e.
Proof.
  revert vec. induction pre as [ | x pre IH]; intros vec Hpre Hthrow; simpl.
  - now rewrite Hthrow.
  - destruct (Hpre x (or_introl eq_refl)) as [v Hv]. rewrite Hv. simpl.
    apply IH; [ | assumption ].
    intros y Hy. apply Hpre. now right.
Qed.

End ToVectorFacts.

(** X5. With a converter that does not throw, [to_vector] returns the
    converter's values for all the rows, in row order: as many elements as
    [size()], element [i] being the converter applied to row [i]. *)
Theorem Result_to_vector_maps_rows :
  forall (T : Type) (f : Row.t -> T) (res : Result.t),
  exists vec : list T,
    Result.to_vector (fun r => Ret (f r)) res = Ret vec /\
    N.of_nat (List.length vec) = Result.size res /\
    forall i : nat,
      match Result.at_ res (N.of_nat i) with
      | Ret r => nth_error vec i = Some (f r)
      | Throw _ => nth_error vec i = None
      end.
Proof.
  intros T f res.
  exists (map (fun r => f (Row.Row r)) (result_rows (Result._result res))).
  unfold Result.to_vector. rewrite (to_vector_loop_pure T f). simpl.
  split; [ reflexivity | split ].
  - unfold Result.size. now rewrite length_map.
  - intros i.
    rewrite (at_is_nth_error res (N.of_nat i)), Nnat.Nat2N.id, nth_error_map.
    destruct (nth_error (result_rows (Result._result res)) i); reflexivity.
Qed.

(** X6. When the converter throws, [to_vector] stops at the first row on
    which it does and the caller gets that exception. *)
Theorem Result_to_vector_first_exception :
  forall (T : Type) (converter : Row.t -> outcome T) (res : Result.t)
         (pre post : list pqxx_row) (r : pqxx_row) (e : exn),
    result_rows (Result._result res) = (pre ++ r :: post)%list ->
    (forall x, In x pre -> exists v, converter (Row.Row x) = Ret v) ->
    converter (Row.Row r) = Throw e ->
    Result.to_vector converter res = Throw e.
Proof.
  intros T converter res pre post r e Hrows Hpre Hthrow.
  unfold Result.to_vector. rewrite Hrows.
  now apply to_vector_loop_first_throw.
Qed.

(** Two rows read by their age column: the second age is NULL. *)
Lemma Result_to_vector_first_exception_witness :
  let aged := {| row_fields := [Some "2"; Some "41"]; row_names := ["id"; "age"] |} in
  let res := Result.Result
               {| result_rows := [aged; Scripted.sample_row]; result_affected_rows := 2 |} in
  Result.to_vector
    (fun row => Row.get_name Scripted.column_number Scripted.int_from_string row "age") res
  = Throw (mk_exn pqxx_conversion_error "Attempt to convert null").
Proof.
  apply (Result_to_vector_first_exception Z
           (fun row => Row.get_name Scripted.column_number Scripted.int_from_string row "age")
           (Result.Result
              {| result_rows :=
                   [{| row_fields := [Some "2"; Some "41"]; row_names := ["id"; "age"] |};
                    Scripted.sample_row];
                 result_affected_rows := 2 |})
           [{| row_fields := [Some "2"; Some "41"]; row_names := ["id"; "age"] |}]
           [] Scripted.sample_row
           (mk_exn pqxx_conversion_error "Attempt to convert null")).
  - reflexivity.
  - intros x [Hx | []]. subst x. exists 41. reflexivity.
  - reflexivity.
Defined.

(** ** Transaction lifecycle *)

(** X7. Whatever the backend throws at a statement, [exec], [exec_params]
    and [exec_prepared] throw an exception of the [DatabaseError] hierarchy
    in its place: [QueryError], with the backend's text behind the prefix
    "Query error: ", for a [pqxx::sql_error], and [DatabaseError] with the
    backend's text as it is for anything else; a Result comes back
    unchanged. *)
Theorem Transaction_exec_error_translation :
  forall (W : Type) (B : Backend W) (txn : Transaction.t W),
    let report (r : outcome pqxx_result) : outcome Result.t :=
      match r with
      | Ret res => Ret (Result.Result res)
      | Throw e0 =>
          if is_sql_error e0
          then Throw (mk_exn cls_QueryError ("Query error: " ++ what e0))
          else Throw (mk_exn cls_DatabaseError (what e0))
      end in
    (forall sql,
        snd (Transaction.exec sql txn)
        = report (snd (pqxx_exec sql (Transaction._txn txn)))) /\
    (forall sql args,
        snd (Transaction.exec_params sql args txn)
        = report (snd (pqxx_exec_params sql args (Transaction._txn txn)))) /\
    (forall name args,
        snd (Transaction.exec_prepared name args txn)
        = report (snd (pqxx_exec_prepared name args (Transaction._txn txn)))) /\
    (forall r, match report r with
               | Ret _ => True
               | Throw e => is_DatabaseError e = true
               end).
Proof.
  intros W B txn report.
  assert (Hwrap : forall r, Transaction.wrap r = report r).
  { intros [res | e0]; simpl; [ reflexivity | ].
    unfold Transaction.translate. destruct (is_sql_error e0); reflexivity. }
  repeat apply conj.
  - intros sql. unfold Transaction.exec.
    destruct (pqxx_exec sql (Transaction._txn txn)) as [w r]. apply Hwrap.
  - intros sql args. unfold Transaction.exec_params.
    destruct (pqxx_exec_params sql args (Transaction._txn txn)) as [w r]. apply Hwrap.
  - intros name args. unfold Transaction.exec_prepared.
    destruct (pqxx_exec_prepared name args (Transaction._txn txn)) as [w r]. apply Hwrap.
  - intros [res | e0]; simpl; [ exact I | ].
    destruct (is_sql_error e0); reflexivity.
Qed.

(** X8. A statement never moves the transaction out of the Open state,
    whether it returns or throws: after [exec], [exec_params] or
    [exec_prepared] on an Open transaction the transaction is still Open and
    a [commit()] is handed to the backend, on the session as the statement
    left it. *)
Theorem Transaction_statement_keeps_open :
  forall (W : Type) (B : Backend W) (txn : Transaction.t W),
    Transaction.is_terminal txn = false ->
    (forall sql,
        Transaction.is_terminal (fst (Transaction.exec sql txn)) = false /\
        Transaction._txn (fst (Transaction.commit (fst (Transaction.exec sql txn))))
        = fst (pqxx_commit (fst (pqxx_exec sql (Transaction._txn txn))))) /\
    (forall sql args,
        Transaction.is_terminal (fst (Transaction.exec_params sql args txn)) = false /\
        Transaction._txn (fst (Transaction.commit (fst (Transaction.exec_params sql args txn))))
        = fst (pqxx_commit (fst (pqxx_exec_params sql args (Transaction._txn txn))))) /\
    (forall name args,
        Transaction.is_terminal (fst (Transaction.exec_prepared name args txn)) = false /\
        Transaction._txn (fst (Transaction.commit (fst (Transaction.exec_prepared name args txn))))
        = fst (pqxx_commit (fst (pqxx_exec_prepared name args (Transaction._txn txn))))).
Proof.
  intros W B txn Hopen. unfold Transaction.is_terminal in *.
  repeat apply conj; intros.
  - unfold Transaction.exec.
    destruct (pqxx_exec sql (Transaction._txn txn)) as [w r]. simpl.
    split; [ assumption | ]. unfold Transaction.commit. simpl. rewrite Hopen.
    destruct (pqxx_commit w) as [w' [[] | e]]; reflexivity.
  - unfold Transaction.exec_params.
    destruct (pqxx_exec_params sql args (Transaction._txn txn)) as [w r]. simpl.
    split; [ assumption | ]. unfold Transaction.commit. simpl. rewrite Hopen.
    destruct (pqxx_commit w) as [w' [[] | e]]; reflexivity.
  - unfold Transaction.exec_prepared.
    destruct (pqxx_exec_prepared name args (Transaction._txn txn)) as [w r]. simpl.
    split; [ assumption | ]. unfold Transaction.commit. simpl. rewrite Hopen.
    destruct (pqxx_commit w) as [w' [[] | e]]; reflexivity.
Qed.

(** A division by zero, then a commit the backend accepts. *)
Lemma Transaction_statement_keeps_open_witness :
  let txn := Scripted.open_txn [Some Scripted.division_by_zero] in
  (Transaction.is_terminal (fst (Transaction.exec "SELECT 1/0" txn)) = false /\
   Transaction._txn (fst (Transaction.commit (fst (Transaction.exec "SELECT 1/0" txn))))
   = fst (pqxx_commit (fst (pqxx_exec "SELECT 1/0" (Transaction._txn txn))))) /\
  snd (Transaction.exec "SELECT 1/0" txn)
  = Throw (QueryError "ERROR:  division by zero") /\
  snd (Transaction.commit (fst (Transaction.exec "SELECT 1/0" txn))) = Ret tt.
Proof.
  split.
  - apply (Transaction_statement_keeps_open Scripted.session Scripted.backend
             (Scripted.open_txn [Some Scripted.division_by_zero])).
    reflexivity.
  - split; reflexivity.
Defined.

(** X9. The destructor rolls back only what was left Open: after a
    [commit()] or an [abort()] that returned it leaves the session alone,
    and on a transaction still Open it runs the backend abort, whose
    exception, if any, goes nowhere. *)
Theorem Transaction_dtor_rolls_back_open_only :
  forall (W : Type) (B : Backend W) (tc ta topen : Transaction.t W),
    snd (Transaction.commit tc) = Ret tt ->
    snd (Transaction.abort ta) = Ret tt ->
    Transaction.is_terminal topen = false ->
    Transaction.dtor (fst (Transaction.commit tc))
    = Transaction._txn (fst (Transaction.commit tc)) /\
    Transaction.dtor (fst (Transaction.abort ta))
    = Transaction._txn (fst (Transaction.abort ta)) /\
    Transaction.dtor topen = fst (pqxx_abort (Transaction._txn topen)).
Proof.
  intros W B tc ta topen Hc Ha Hopen.
  pose proof (commit_returns_terminal tc Hc) as Htc.
  pose proof (abort_returns_terminal ta Ha) as Hta.
  unfold Transaction.is_terminal in *. unfold Transaction.dtor.
  rewrite Htc, Hta, Hopen. repeat split.
Qed.

(** On the scripted session: one call each of commit and abort in the two
    logs, and the abort of the destructor, which fails, in the third. *)
Lemma Transaction_dtor_rolls_back_open_only_witness :
  let tc := Scripted.open_txn [] in
  let ta := Scripted.open_txn [] in
  let topen := Scripted.open_txn [Some Scripted.lost_connection] in
  (Transaction.dtor (fst (Transaction.commit tc))
   = Transaction._txn (fst (Transaction.commit tc)) /\
   Transaction.dtor (fst (Transaction.abort ta))
   = Transaction._txn (fst (Transaction.abort ta)) /\
   Transaction.dtor topen = fst (pqxx_abort (Transaction._txn topen))) /\
  Scripted.log (Transaction.dtor (fst (Transaction.commit tc))) = [Scripted.call_commit] /\
  Scripted.log (Transaction.dtor (fst (Transaction.abort ta))) = [Scripted.call_abort] /\
  Scripted.log (Transaction.dtor topen) = [Scripted.call_abort].
Proof.
  split.
  - apply (Transaction_dtor_rolls_back_open_only Scripted.session Scripted.backend
             (Scripted.open_txn []) (Scripted.open_txn [])
             (Scripted.open_txn [Some Scripted.lost_connection])).
    + reflexivity.
    + reflexivity.
    + reflexivity.
  - repeat split.
Defined.

(** X10. [abort()] has no handler: when the backend abort throws on an Open
    transaction the caller gets the backend's exception as it is, not
    translated into a [DatabaseError], the transaction stays Open, and the
    destructor runs the backend abort once more. *)
Theorem Transaction_abort_backend_failure :
  forall (W : Type) (B : Backend W) (txn : Transaction.t W) (w : W) (e : exn),
    Transaction.is_terminal txn = false ->
    pqxx_abort (Transaction._txn txn) = (w, Throw e) ->
    Transaction.abort txn
    = ({| Transaction._txn := w; Transaction._committed := false |}, Throw e) /\
    Transaction.dtor (fst (Transaction.abort txn)) = fst (pqxx_abort w).
Proof.
  intros W B txn w e Hopen Hfail. unfold Transaction.is_terminal in Hopen.
  unfold Transaction.abort. rewrite Hopen, Hfail. simpl. split; reflexivity.
Qed.

(** An abort on a lost connection. *)
Lemma Transaction_abort_backend_failure_witness :
  let txn := Scripted.open_txn [Some Scripted.lost_connection] in
  (Transaction.abort txn
   = ({| Transaction._txn := fst (pqxx_abort (Transaction._txn txn));
         Transaction._committed := false |},
      Throw Scripted.lost_connection) /\
   Transaction.dtor (fst (Transaction.abort txn))
   = fst (pqxx_abort (fst (pqxx_abort (Transaction._txn txn))))) /\
  is_DatabaseError Scripted.lost_connection = false /\
  Scripted.log (Transaction.dtor (fst (Transaction.abort txn)))
  = [Scripted.call_abort; Scripted.call_abort].
Proof.
  split.
  - apply (Transaction_abort_backend_failure Scripted.session Scripted.backend
             (Scripted.open_txn [Some Scripted.lost_connection])
             (fst (pqxx_abort (Scripted.fresh [Some Scripted.lost_connection])))
             Scripted.lost_connection).
    + reflexivity.
    + reflexivity.
  - repeat split.
Defined.

(** ** Database *)

Section DatabaseRefusals.

Context {W : Type} {B : Backend W}.

Lemma begin_transaction_not_open (db : Database.t W) :
  Database.is_open db = false ->
  Database.begin_transaction db
  = (db, Throw (ConnectionError "Connection is not open")).
Proof.
  intros H. unfold Database.begin_transaction. now rewrite H.
Qed.

Lemma autocommit_not_open
      (run : Transaction.t W -> Transaction.t W * outcome Result.t)
      (db : Database.t W) :
  Database.is_open db = false ->
  Database.autocommit run db = (db, Throw (ConnectionError "Connection is not open")).
Proof.
  intros H. unfold Database.autocommit.
  now rewrite (begin_transaction_not_open db H).
Qed.

End DatabaseRefusals.

(** X11. On a Database that is not open, closed or with a session that
    reports dead, [begin_transaction], [exec], [exec_params],
    [exec_prepared], [table_exists] and [get_columns] all throw
    [ConnectionError] with the text "Connection error: Connection is not
    open", and the backend is not contacted. *)
Theorem Database_not_open_refuses :
  forall (W : Type) (B : Backend W) (db : Database.t W),
    Database.is_open db = false ->
    let refused := mk_exn cls_ConnectionError "Connection error: Connection is not open" in
    Database.begin_transaction db = (db, Throw refused) /\
    (forall sql, Database.exec sql db = (db, Throw refused)) /\
    (forall sql args, Database.exec_params sql args db = (db, Throw refused)) /\
    (forall name args, Database.exec_prepared name args db = (db, Throw refused)) /\
    (forall u bool_from_string name,
        Database.table_exists u bool_from_string name db = (db, Throw refused)) /\
    (forall u name, Database.get_columns u name db = (db, Throw refused)).
Proof.
  intros W B db Hclosed refused. subst refused.
  repeat apply conj; intros.
  - now apply begin_transaction_not_open.
  - now apply autocommit_not_open.
  - now apply autocommit_not_open.
  - now apply autocommit_not_open.
  - unfold Database.table_exists, Database.exec_params.
    now rewrite (autocommit_not_open _ db Hclosed).
  - unfold Database.get_columns, Database.exec_params.
    now rewrite (autocommit_not_open _ db Hclosed).
Qed.

(** A connection whose session reports dead. *)
Lemma Database_not_open_refuses_witness :
  let db := {| Database._conn :=
                 Some {| Scripted.log := []; Scripted.script := []; Scripted.alive := false |} |} in
  Database.exec "SELECT 1" db
  = (db, Throw (mk_exn cls_ConnectionError "Connection error: Connection is not open")).
Proof.
  apply (Database_not_open_refuses Scripted.session Scripted.backend
           {| Database._conn :=
                Some {| Scripted.log := []; Scripted.script := []; Scripted.alive := false |} |}).
  reflexivity.
Defined.

(** X12. [close()] is idempotent and leaves the Database not open, so that
    a statement after it is refused with [ConnectionError]. *)
Theorem Database_close_idempotent :
  forall (W : Type) (B : Backend W) (db : Database.t W) (sql : string),
    Database.close (Database.close db) = Database.close db /\
    Database.is_open (Database.close db) = false /\
    Database.exec sql (Database.close db)
    = (Database.close db, Throw (ConnectionError "Connection is not open")).
Proof.
  intros W B db sql. repeat split.
Qed.

(** X13. When the [pqxx::work] constructor throws on an open connection,
    [begin_transaction] and the three wrappers around it pass the backend's
    exception on as it is, with no translation, and call nothing else: no
    statement, no commit, no abort. *)
Theorem Database_begin_failure_passes_through :
  forall (W : Type) (B : Backend W) (db : Database.t W) (conn w : W) (e : exn),
    Database._conn db = Some conn ->
    pqxx_is_open conn = true ->
    pqxx_work conn = (w, Throw e) ->
    Database.begin_transaction db = ({| Database._conn := Some w |}, Throw e) /\
    (forall sql, Database.exec sql db = ({| Database._conn := Some w |}, Throw e)) /\
    (forall sql args,
        Database.exec_params sql args db = ({| Database._conn := Some w |}, Throw e)) /\
    (forall name args,
        Database.exec_prepared name args db = ({| Database._conn := Some w |}, Throw e)).
Proof.
  intros W B db conn w e Hconn Hopen Hwork.
  assert (Hbegin : Database.begin_transaction db
                   = ({| Database._conn := Some w |}, Throw e)).
  { unfold Database.begin_transaction, Database.is_open, Transaction.ctor.
    now rewrite Hconn, Hopen, Hwork. }
  repeat apply conj; intros;
    try (unfold Database.exec, Database.exec_params, Database.exec_prepared,
           Database.autocommit; rewrite Hbegin); reflexivity || exact Hbegin.
Qed.

(** A session on which BEGIN fails. *)
Lemma Database_begin_failure_passes_through_witness :
  let db := Scripted.live_db [Some Scripted.lost_connection] in
  Database.exec "SELECT 1" db
  = ({| Database._conn := Some (fst (pqxx_work (Scripted.fresh [Some Scripted.lost_connection]))) |},
     Throw Scripted.lost_connection) /\
  option_map Scripted.log (Database._conn (fst (Database.exec "SELECT 1" db)))
  = Some [Scripted.call_work].
Proof.
  split.
  - apply (Database_begin_failure_passes_through Scripted.session Scripted.backend
             (Scripted.live_db [Some Scripted.lost_connection])
             (Scripted.fresh [Some Scripted.lost_connection])
             (fst (pqxx_work (Scripted.fresh [Some Scripted.lost_connection])))
             Scripted.lost_connection).
    + reflexivity.
    + reflexivity.
    + reflexivity.
  - reflexivity.
Defined.

(** ** Text assembled by the Database helpers *)

Lemma string_app_assoc (a b c : string) : ((a ++ b) ++ c = a ++ (b ++ c))%string.
Proof.
  induction a as [ | ch a IH]; simpl; [ reflexivity | now rewrite IH ].
Qed.

Lemma string_app_empty_r (a : string) : (a ++ "" = a)%string.
Proof.
  induction a as [ | ch a IH]; simpl; [ reflexivity | now rewrite IH ].
Qed.

(** X14. The five-parameter constructor connects with the descriptor
    [host=H port=P dbname=D user=U password=W] put together from the values
    as they are: nothing is escaped, so a value that contains the text of
    the next key gives the descriptor of a different set of values. *)
Theorem Database_descriptor_verbatim :
  forall (W : Type) (connect : string -> outcome W)
         (host port dbname user password injected : string),
    Database.ctor_params connect host port dbname user password
    = Database.ctor connect
        ("host=" ++ host ++ " port=" ++ port ++ " dbname=" ++ dbname
         ++ " user=" ++ user ++ " password=" ++ password) /\
    Database.descriptor (host ++ " port=" ++ injected) port dbname user password
    = Database.descriptor host (injected ++ " port=" ++ port) dbname user password.
Proof.
  intros W connect host port dbname user password injected. split.
  - reflexivity.
  - unfold Database.descriptor.
    repeat rewrite string_app_assoc. reflexivity.
Qed.

(** X15. [prepare] reports every failure of the backend, a
    [pqxx::sql_error] included, as plain [DatabaseError] carrying the
    backend's text, never as [QueryError]; and it asks the backend without
    testing [is_open()] first. *)
Theorem Database_prepare_failure :
  forall (W : Type) (pqxx_prepare : string -> string -> W -> W * outcome unit)
         (name sql : string) (db : Database.t W) (conn w : W) (e : exn),
    Database._conn db = Some conn ->
    pqxx_prepare name sql conn = (w, Throw e) ->
    Database.prepare pqxx_prepare name sql db
    = Some ({| Database._conn := Some w |},
            Throw (mk_exn cls_DatabaseError (what e))).
Proof.
  intros W pqxx_prepare name sql db conn w e Hconn Hfail.
  unfold Database.prepare. now rewrite Hconn, Hfail.
Qed.

(** A statement with a syntax error, prepared on a session that reports
    dead. *)
Lemma Database_prepare_failure_witness :
  let dead := {| Scripted.log := []; Scripted.script := []; Scripted.alive := false |} in
  let reject := fun (_ _ : string) (s : Scripted.session) =>
                  (s, Throw (A := unit) (mk_exn pqxx_sql_error "syntax error")) in
  Database.prepare reject "stmt" "SELEC 1" {| Database._conn := Some dead |}
  = Some ({| Database._conn := Some dead |},
          Throw (mk_exn cls_DatabaseError "syntax error")).
Proof.
  apply (Database_prepare_failure Scripted.session
           (fun (_ _ : string) (s : Scripted.session) =>
              (s, Throw (A := unit) (mk_exn pqxx_sql_error "syntax error")))
           "stmt" "SELEC 1"
           {| Database._conn :=
                Some {| Scripted.log := []; Scripted.script := []; Scripted.alive := false |} |}
           {| Scripted.log := []; Scripted.script := []; Scripted.alive := false |}
           {| Scripted.log := []; Scripted.script := []; Scripted.alive := false |}
           (mk_exn pqxx_sql_error "syntax error")).
  - reflexivity.
  - reflexivity.
Defined.

Section InsertText.

(** Entered past index 0, either loop writes every item behind a comma. *)
Lemma write_columns_later (i : nat) (columns : list string) (oss : string) :
  (0 < i)%nat ->
  Database.write_columns i columns oss
  = (oss ++ String.concat "" (map (fun c => ", " ++ c) columns))%string.
Proof.
  revert i oss. induction columns as [ | c rest IH]; intros i oss Hi; simpl.
  - now rewrite string_app_empty_r.
  - replace (0 <? i)%nat with true by (symmetry; now apply Nat.ltb_lt).
    rewrite IH by lia.
    destruct rest as [ | c' rest']; simpl.
    + now rewrite !string_app_empty_r, !string_app_assoc.
    + now rewrite !string_app_assoc.
Qed.

Lemma concat_separated (sep x : string) (xs : list string) :
  String.concat sep (x :: xs)
  = (x ++ String.concat "" (map (fun c => sep ++ c) xs))%string.
Proof.
  revert x. induction xs as [ | y ys IH]; intros x.
  - simpl. now rewrite string_app_empty_r.
  - change (String.concat sep (x :: y :: ys))
      with (x ++ sep ++ String.concat sep (y :: ys))%string.
    rewrite IH. simpl.
    destruct ys as [ | z zs]; simpl.
    + now rewrite !string_app_empty_r.
    + now rewrite !string_app_assoc.
Qed.

Lemma write_columns_from_start (columns : list string) (oss : string) :
  Database.write_columns 0 columns oss
  = (oss ++ String.concat ", " columns)%string.
Proof.
  destruct columns as [ | c rest].
  - simpl. now rewrite string_app_empty_r.
  - rewrite concat_separated. simpl.
    rewrite write_columns_later by lia.
    now rewrite string_app_assoc.
Qed.

Lemma write_placeholders_later (i left : nat) (oss : string) :
  (0 < i)%nat ->
  Database.write_placeholders i left oss
  = (oss ++ String.concat "" (map (fun j => ", " ++ Database.placeholder j) (seq i left)))%string.
Proof.
  revert i oss. induction left as [ | left IH]; intros i oss Hi; simpl.
  - now rewrite string_app_empty_r.
  - replace (0 <? i)%nat with true by (symmetry; now apply Nat.ltb_lt).
    rewrite IH by lia. unfold Database.placeholder.
    destruct left as [ | left']; simpl.
    + now rewrite !string_app_empty_r, !string_app_assoc.
    + now rewrite !string_app_assoc.
Qed.

Lemma write_placeholders_from_start (n : nat) (oss : string) :
  Database.write_placeholders 0 n oss
  = (oss ++ String.concat ", " (map Database.placeholder (seq 0 n)))%string.
Proof.
  destruct n as [ | n].
  - simpl. now rewrite string_app_empty_r.
  - change (map Database.placeholder (seq 0 (S n)))
      with (Database.placeholder 0 :: map Database.placeholder (seq 1 n)).
    rewrite concat_separated, map_map.
    cbn [Database.write_placeholders Nat.ltb Nat.leb].
    rewrite write_placeholders_later by lia.
    now rewrite !string_app_assoc.
Qed.

End InsertText.

(** X16. [insert] throws [std::invalid_argument] before doing anything else
    when the number of values differs from the number of columns; otherwise
    it runs, through [exec_params] with the values in their order, the
    statement [INSERT INTO t (c1, c2, ...) VALUES ($1, $2, ...)] with the
    table and column names as given and one numbered placeholder per column,
    drops the Result and lets an exception of [exec_params] through. *)
Theorem Database_insert_statement :
  forall (W : Type) (B : Backend W) (table : string) (columns : list string)
         (values : list param) (db : Database.t W),
    let sql := "INSERT INTO " ++ table ++ " ("
               ++ String.concat ", " columns
               ++ ") VALUES ("
               ++ String.concat ", "
                    (map (fun i => "$" ++ Database.decimal (i + 1))
                         (seq 0 (List.length columns)))
               ++ ")" in
    Database.insert_sql table columns = sql /\
    Database.insert table columns values db
    = if (List.length values =? List.length columns)%nat then
        Database.proceeds
          (fst (Database.exec_params sql values db),
           match snd (Database.exec_params sql values db) with
           | Ret _ => Ret tt
           | Throw e => Throw e
           end)
      else
        Database.std_invalid_argument _
          "Number of values doesn't match number of columns".
Proof.
  intros W B table columns values db sql.
  assert (Hsql : Database.insert_sql table columns = sql).
  { unfold Database.insert_sql.
    rewrite write_columns_from_start, write_placeholders_from_start.
    subst sql. unfold Database.placeholder.
    now rewrite !string_app_assoc. }
  split; [ exact Hsql | ].
  unfold Database.insert. rewrite Hsql.
  destruct (List.length values =? List.length columns)%nat; simpl; [ | reflexivity ].
  destruct (Database.exec_params sql values db) as [db' [res | e]]; reflexivity.
Qed.

(** The statement of the README's table. *)
Example Database_insert_sql_example :
  Database.insert_sql "test" ["name"; "age"]
  = "INSERT INTO test (name, age) VALUES ($1, $2)".
Proof. reflexivity. Qed.

Section CatalogueFacts.

Variable size_type_unsigned : bool.
Variable T : Type.
Variable from_string : string -> option T.

Lemma get_first_unfolds (row : pqxx_row) :
  Database.get_first size_type_unsigned from_string (Row.Row row)
  = match row_fields row with
    | [] => Throw (mk_exn std_out_of_range "Column index out of range")
    | f :: _ => Row.field_as from_string f
    end.
Proof.
  unfold Database.get_first, Row.get, Row.index, Row.size, Row.to_size_type. simpl.
  destruct (row_fields row) as [ | f fields]; destruct size_type_unsigned; reflexivity.
Qed.

End CatalogueFacts.

Lemma get_columns_loop (size_type_unsigned : bool) (rows : list pqxx_row)
      (names vec : list string) :
  Forall2 (fun row text => exists rest, row_fields row = Some text :: rest) rows names ->
  Result.to_vector_loop
    (Database.get_first size_type_unsigned (fun text => Some text)) rows vec
  = Ret (vec ++ names)%list.
Proof.
  intros Hrows. revert vec.
  induction Hrows as [ | row text rows names [rest Hrow] _ IH]; intros vec; simpl.
  - now rewrite app_nil_r.
  - rewrite get_first_unfolds, Hrow. simpl.
    rewrite IH, <- app_assoc. reflexivity.
Qed.

(** X17. Once its query has gone through, [table_exists] answers with
    column 0 of the first row converted to [bool]; it throws
    [std::runtime_error("Result is empty")] when the query returned no row
    and [std::out_of_range] when the first row has no column, neither of
    them a [DatabaseError]. *)
Theorem Database_table_exists_reads_first_field :
  forall (W : Type) (B : Backend W) (size_type_unsigned : bool)
         (bool_from_string : string -> option bool)
         (tableName : string) (db db' : Database.t W) (result : Result.t),
    Database.exec_params
      "SELECT EXISTS (SELECT FROM information_schema.tables WHERE table_name = $1)"
      [Some tableName] db = (db', Ret result) ->
    Database.table_exists size_type_unsigned bool_from_string tableName db
    = (db',
       match result_rows (Result._result result) with
       | [] => Throw (mk_exn std_runtime_error "Result is empty")
       | row :: _ =>
           match row_fields row with
           | [] => Throw (mk_exn std_out_of_range "Column index out of range")
           | f :: _ => Row.field_as bool_from_string f
           end
       end).
Proof.
  intros W B u bool_from_string tableName db db' result Hquery.
  unfold Database.table_exists. rewrite Hquery. simpl.
  unfold Result.front.
  destruct (result_rows (Result._result result)) as [ | row rows]; simpl.
  - reflexivity.
  - now rewrite get_first_unfolds.
Qed.

(** The scripted session answers every query with the row [(1, NULL)]. *)
Lemma Database_table_exists_reads_first_field_witness :
  Database.table_exists true Scripted.bool_from_string "test" (Scripted.live_db [])
  = (fst (Database.exec_params
            "SELECT EXISTS (SELECT FROM information_schema.tables WHERE table_name = $1)"
            [Some "test"] (Scripted.live_db [])),
     Ret true).
Proof.
  apply (Database_table_exists_reads_first_field Scripted.session Scripted.backend
           true Scripted.bool_from_string "test" (Scripted.live_db [])
           (fst (Database.exec_params
                   "SELECT EXISTS (SELECT FROM information_schema.tables WHERE table_name = $1)"
                   [Some "test"] (Scripted.live_db [])))
           (Result.Result Scripted.sample_result)).
  reflexivity.
Defined.

(** X18. Once its query has gone through with rows whose column 0 is not
    NULL, [get_columns] returns the texts of column 0, one per row, in row
    order. *)
Theorem Database_get_columns_reads_first_fields :
  forall (W : Type) (B : Backend W) (size_type_unsigned : bool)
         (tableName : string) (db db' : Database.t W) (result : Result.t)
         (names : list string),
    Database.exec_params
      "SELECT column_name FROM information_schema.columns WHERE table_name = $1 ORDER BY ordinal_position"
      [Some tableName] db = (db', Ret result) ->
    Forall2 (fun row text => exists rest, row_fields row = Some text :: rest)
            (result_rows (Result._result result)) names ->
    Database.get_columns size_type_unsigned tableName db = (db', Ret names).
Proof.
  intros W B u tableName db db' result names Hquery Hrows.
  unfold Database.get_columns. rewrite Hquery. simpl.
  now rewrite (get_columns_loop u _ names []).
Qed.

(** On the scripted session the one row carries the text 1 in column 0. *)
Lemma Database_get_columns_reads_first_fields_witness :
  Database.get_columns false "test" (Scripted.live_db [])
  = (fst (Database.exec_params
            "SELECT column_name FROM information_schema.columns WHERE table_name = $1 ORDER BY ordinal_position"
            [Some "test"] (Scripted.live_db [])),
     Ret ["1"]).
Proof.
  apply (Database_get_columns_reads_first_fields Scripted.session Scripted.backend
           false "test" (Scripted.live_db [])
           (fst (Database.exec_params
                   "SELECT column_name FROM information_schema.columns WHERE table_name = $1 ORDER BY ordinal_position"
                   [Some "test"] (Scripted.live_db [])))
           (Result.Result Scripted.sample_result) ["1"]).
  - reflexivity.
  - constructor; [ | constructor ]. exists [None]. reflexivity.
Defined.

(** ** ConnectionPool: the idle store *)

Lemma pop_back_push_back {A : Type} (v : list A) (x : A) :
  pop_back (push_back v x) = Some (v, x).
Proof.
  unfold push_back. induction v as [ | y v IH]; simpl; [ reflexivity | ].
  now rewrite IH.
Qed.

Lemma pop_back_some {A : Type} (v init : list A) (b : A) :
  pop_back v = Some (init, b) -> v = (init ++ [b])%list.
Proof.
  revert init b. induction v as [ | x v IH]; intros init b; simpl; [ discriminate | ].
  destruct (pop_back v) as [[init' b'] | ] eqn:Hpop; intros H; inversion H; subst; simpl.
  - f_equal. now apply IH.
  - apply pop_back_empty in Hpop. now subst.
Qed.

Lemma pop_back_nonempty {A : Type} (v : list A) :
  v <> [] -> exists init b, pop_back v = Some (init, b).
Proof.
  intros Hne. destruct (pop_back v) as [[init b] | ] eqn:Hpop.
  - now exists init, b.
  - apply pop_back_empty in Hpop. contradiction.
Qed.

Lemma get_connection_after_return :
  forall (W : Type) (B : Backend W) (p : ConnectionPool.t W) (db : Database.t W)
         (connect : string -> outcome W),
    Database.is_open db = true ->
    Z.of_nat (List.length (ConnectionPool._pool p)) < ConnectionPool._maxConnections p ->
    ConnectionPool.get_connection connect (ConnectionPool.return_connection (Some db) p)
    = (p, Ret (Some db)).
Proof.
  intros W B [cs pool max cur] db connect Hopen Hroom. simpl in Hroom.
  unfold ConnectionPool.return_connection, ConnectionPool.is_dead. rewrite Hopen. simpl.
  replace (Z.of_nat (List.length pool) <? max) with true
    by (symmetry; now apply Z.ltb_lt).
  unfold ConnectionPool.get_connection. simpl.
  now rewrite pop_back_push_back.
Qed.

(** X19. A connection that is open and returned to a pool whose idle store
    has room is the one the next [get_connection] hands out, and the pool is
    then as it was before the return; the backend is not asked for a new
    connection. *)
Theorem ConnectionPool_return_then_get :
  forall (W : Type) (B : Backend W) (p : ConnectionPool.t W) (db : Database.t W)
         (connect : string -> outcome W),
    Database.is_open db = true ->
    Z.of_nat (List.length (ConnectionPool._pool p)) < ConnectionPool._maxConnections p ->
    ConnectionPool.get_connection connect (ConnectionPool.return_connection (Some db) p)
    = (p, Ret (Some db)).
Proof.
  intros W B [cs pool max cur] db connect Hopen Hroom. simpl in Hroom.
  unfold ConnectionPool.return_connection, ConnectionPool.is_dead. rewrite Hopen. simpl.
  replace (Z.of_nat (List.length pool) <? max) with true
    by (symmetry; now apply Z.ltb_lt).
  unfold ConnectionPool.get_connection. simpl.
  now rewrite pop_back_push_back.
Qed.

(** A fresh pool of capacity 2. *)
Lemma ConnectionPool_return_then_get_witness :
  ConnectionPool.get_connection Scripted.refuse
    (ConnectionPool.return_connection (Some (Scripted.live_db []))
       (ConnectionPool.ctor "host=db" 2))
  = (ConnectionPool.ctor "host=db" 2, Ret (Some (Scripted.live_db []))).
Proof.
  apply (ConnectionPool_return_then_get Scripted.session Scripted.backend
           (ConnectionPool.ctor "host=db" 2) (Scripted.live_db []) Scripted.refuse).
  - reflexivity.
  - simpl. lia.
Defined.

(** X20. The idle store is last in, first out: of two open connections
    returned one after the other, the second is handed out first and the
    first next. *)
Theorem ConnectionPool_idle_store_is_lifo :
  forall (W : Type) (B : Backend W) (p : ConnectionPool.t W) (a b : Database.t W)
         (connect1 connect2 : string -> outcome W),
    Database.is_open a = true ->
    Database.is_open b = true ->
    Z.of_nat (List.length (ConnectionPool._pool p)) + 1 < ConnectionPool._maxConnections p ->
    let returned :=
      ConnectionPool.return_connection (Some b)
        (ConnectionPool.return_connection (Some a) p) in
    snd (ConnectionPool.get_connection connect1 returned) = Ret (Some b) /\
    snd (ConnectionPool.get_connection connect2
           (fst (ConnectionPool.get_connection connect1 returned))) = Ret (Some a) /\
    fst (ConnectionPool.get_connection connect2
           (fst (ConnectionPool.get_connection connect1 returned))) = p.
Proof.
  intros W B p a b connect1 connect2 Ha Hb Hroom returned. subst returned.
  assert (Hlen : List.length (ConnectionPool._pool
                                (ConnectionPool.return_connection (Some a) p))
                 = S (List.length (ConnectionPool._pool p))).
  { unfold ConnectionPool.return_connection, ConnectionPool.is_dead. rewrite Ha. simpl.
    replace (Z.of_nat (List.length (ConnectionPool._pool p))
             <? ConnectionPool._maxConnections p) with true
      by (symmetry; apply Z.ltb_lt; lia).
    simpl. apply push_back_length. }
  assert (Hmax : ConnectionPool._maxConnections
                   (ConnectionPool.return_connection (Some a) p)
                 = ConnectionPool._maxConnections p).
  { unfold ConnectionPool.return_connection, ConnectionPool.drop.
    destruct (ConnectionPool.is_dead (Some a)); [ reflexivity | ].
    destruct (Z.of_nat (List.length (ConnectionPool._pool p))
              <? ConnectionPool._maxConnections p); reflexivity. }
  rewrite (get_connection_after_return W B
             (ConnectionPool.return_connection (Some a) p) b connect1 Hb)
    by (rewrite Hlen, Hmax; lia).
  simpl.
  rewrite (get_connection_after_return W B p a connect2 Ha) by lia.
  repeat split.
Qed.

(** Two connections returned to a fresh pool of capacity 2. *)
Lemma ConnectionPool_idle_store_is_lifo_witness :
  let a := Scripted.live_db [] in
  let b := Scripted.live_db [None] in
  let returned :=
    ConnectionPool.return_connection (Some b)
      (ConnectionPool.return_connection (Some a) (ConnectionPool.ctor "host=db" 2)) in
  snd (ConnectionPool.get_connection Scripted.refuse returned) = Ret (Some b) /\
  snd (ConnectionPool.get_connection Scripted.refuse
         (fst (ConnectionPool.get_connection Scripted.refuse returned))) = Ret (Some a) /\
  fst (ConnectionPool.get_connection Scripted.refuse
         (fst (ConnectionPool.get_connection Scripted.refuse returned)))
  = ConnectionPool.ctor "host=db" 2.
Proof.
  apply (ConnectionPool_idle_store_is_lifo Scripted.session Scripted.backend
           (ConnectionPool.ctor "host=db" 2)
           (Scripted.live_db []) (Scripted.live_db [None])
           Scripted.refuse Scripted.refuse).
  - reflexivity.
  - reflexivity.
  - simpl. lia.
Defined.

(** X21. While the idle store holds a connection, [get_connection] hands out
    the one stored last and nothing else happens: it does not throw, the
    backend is not asked for a connection, and the live count, the capacity
    and the descriptor stay as they are. *)
Theorem ConnectionPool_get_prefers_idle :
  forall (W : Type) (B : Backend W) (p : ConnectionPool.t W)
         (connect : string -> outcome W),
    ConnectionPool._pool p <> [] ->
    exists (rest : list (Database.t W)) (conn : Database.t W),
      ConnectionPool._pool p = (rest ++ [conn])%list /\
      ConnectionPool.get_connection connect p
      = ({| ConnectionPool._connectionString := ConnectionPool._connectionString p;
            ConnectionPool._pool := rest;
            ConnectionPool._maxConnections := ConnectionPool._maxConnections p;
            ConnectionPool._currentConnections := ConnectionPool._currentConnections p |},
         Ret (Some conn)).
Proof.
  intros W B p connect Hne.
  destruct (pop_back_nonempty (ConnectionPool._pool p) Hne) as [rest [conn Hpop]].
  exists rest, conn. split.
  - now apply pop_back_some.
  - unfold ConnectionPool.get_connection. now rewrite Hpop.
Qed.

(** A pool holding one idle connection, asked while the server refuses new
    ones. *)
Lemma ConnectionPool_get_prefers_idle_witness :
  let p := ConnectionPool.return_connection (Some (Scripted.live_db []))
             (ConnectionPool.ctor "host=db" 1) in
  exists (rest : list (Database.t Scripted.session)) (conn : Database.t Scripted.session),
    ConnectionPool._pool p = (rest ++ [conn])%list /\
    ConnectionPool.get_connection Scripted.refuse p
    = ({| ConnectionPool._connectionString := ConnectionPool._connectionString p;
          ConnectionPool._pool := rest;
          ConnectionPool._maxConnections := ConnectionPool._maxConnections p;
          ConnectionPool._currentConnections := ConnectionPool._currentConnections p |},
       Ret (Some conn)).
Proof.
  apply (ConnectionPool_get_prefers_idle Scripted.session Scripted.backend
           (ConnectionPool.return_connection (Some (Scripted.live_db []))
              (ConnectionPool.ctor "host=db" 1))
           Scripted.refuse).
  discriminate.
Defined.

Section ConnectionPoolInvariants.

Context {W : Type} {B : Backend W}.

(** What no call changes: the capacity, the descriptor, and that the idle
    store fits the capacity and holds open connections only. *)
Lemma step_keeps_store (o : ConnectionPool.op) (p : ConnectionPool.t W) :
  Z.of_nat (List.length (ConnectionPool._pool p)) <= ConnectionPool._maxConnections p ->
  Forall (fun db => Database.is_open db = true) (ConnectionPool._pool p) ->
  let q := ConnectionPool.step o p in
  Z.of_nat (List.length (ConnectionPool._pool q)) <= ConnectionPool._maxConnections q /\
  Forall (fun db => Database.is_open db = true) (ConnectionPool._pool q) /\
  ConnectionPool._maxConnections q = ConnectionPool._maxConnections p /\
  ConnectionPool._connectionString q = ConnectionPool._connectionString p.
Proof.
  intros Hfit Hopen. destruct o as [connect | conn]; simpl.
  - unfold ConnectionPool.get_connection.
    destruct (pop_back (ConnectionPool._pool p)) as [[rest conn] | ] eqn:Hpop; simpl.
    + pose proof (pop_back_length _ _ _ Hpop) as Hlen.
      apply pop_back_some in Hpop. rewrite Hpop in Hopen.
      apply Forall_app in Hopen. destruct Hopen as [Hrest _].
      repeat split; [ lia | assumption ].
    + destruct (ConnectionPool._currentConnections p <? ConnectionPool._maxConnections p);
        simpl; repeat split; assumption.
  - unfold ConnectionPool.return_connection, ConnectionPool.drop, ConnectionPool.is_dead.
    destruct conn as [db | ]; simpl; [ | repeat split; assumption ].
    destruct (Database.is_open db) eqn:Hdb; simpl; [ | repeat split; assumption ].
    destruct (Z.of_nat (List.length (ConnectionPool._pool p))
              <? ConnectionPool._maxConnections p) eqn:Hroom; simpl;
      [ | repeat split; assumption ].
    apply Z.ltb_lt in Hroom. rewrite push_back_length. repeat split.
    + lia.
    + unfold push_back. apply Forall_app. split; [ assumption | ].
      constructor; [ assumption | constructor ].
Qed.

End ConnectionPoolInvariants.

(** X22. Whatever the callers do, misuse included, the idle store never
    holds more connections than the capacity, every connection in it was
    open when it was stored, and the capacity and the descriptor of the pool
    never change: this holds in every state that any sequence of
    [get_connection] and [return_connection] calls goes through. *)
Theorem ConnectionPool_idle_store_invariant :
  forall (W : Type) (B : Backend W) (connectionString : string) (N : Z)
         (ops : list ConnectionPool.op),
    0 <= N ->
    Forall (fun p =>
              Z.of_nat (List.length (ConnectionPool._pool p)) <= N /\
              Forall (fun db => Database.is_open db = true) (ConnectionPool._pool p) /\
              ConnectionPool._maxConnections p = N /\
              ConnectionPool._connectionString p = connectionString)
           (ConnectionPool.states ops (ConnectionPool.ctor connectionString N)).
Proof.
  intros W B cs N ops HN.
  assert (Hgen : forall p : ConnectionPool.t W,
             Z.of_nat (List.length (ConnectionPool._pool p)) <= N ->
             Forall (fun db => Database.is_open db = true) (ConnectionPool._pool p) ->
             ConnectionPool._maxConnections p = N ->
             ConnectionPool._connectionString p = cs ->
             Forall (fun q =>
                       Z.of_nat (List.length (ConnectionPool._pool q)) <= N /\
                       Forall (fun db => Database.is_open db = true) (ConnectionPool._pool q) /\
                       ConnectionPool._maxConnections q = N /\
                       ConnectionPool._connectionString q = cs)
                    (ConnectionPool.states ops p)).
  { induction ops as [ | o ops IH]; intros p Hfit Hopen Hmax Hcs; simpl.
    - constructor; [ repeat split; assumption | constructor ].
    - constructor; [ repeat split; assumption | ].
      rewrite <- Hmax in Hfit.
      destruct (step_keeps_store o p Hfit Hopen) as (Hfit' & Hopen' & Hmax' & Hcs').
      apply IH.
      + rewrite <- Hmax, <- Hmax'. exact Hfit'.
      + exact Hopen'.
      + now rewrite Hmax'.
      + now rewrite Hcs'. }
  apply Hgen; simpl; try reflexivity; [ lia | constructor ].
Qed.

(** Callers that hand the pool a null, a closed and two connections it never
    leased, on a pool of capacity 1. *)
Lemma ConnectionPool_idle_store_invariant_witness :
  let ops := [ConnectionPool.op_return None;
              ConnectionPool.op_return (Some (Database.close (Scripted.live_db [])));
              ConnectionPool.op_return (Some (Scripted.live_db []));
              ConnectionPool.op_return (Some (Scripted.live_db []));
              ConnectionPool.op_get Scripted.refuse] in
  Forall (fun p =>
            Z.of_nat (List.length (ConnectionPool._pool p)) <= 1 /\
            Forall (fun db => Database.is_open db = true) (ConnectionPool._pool p) /\
            ConnectionPool._maxConnections p = 1 /\
            ConnectionPool._connectionString p = "host=db")
         (ConnectionPool.states ops (ConnectionPool.ctor "host=db" 1)).
Proof.
  apply (ConnectionPool_idle_store_invariant Scripted.session Scripted.backend
           "host=db" 1).
  lia.
Defined.

(** X23. An open connection returned while the idle store is full is
    dropped: the store stays as it is and the live count goes down by one. *)
Theorem ConnectionPool_return_to_full_store :
  forall (W : Type) (B : Backend W) (p : ConnectionPool.t W) (db : Database.t W),
    Database.is_open db = true ->
    ConnectionPool._maxConnections p <= Z.of_nat (List.length (ConnectionPool._pool p)) ->
    0 < ConnectionPool._currentConnections p <= SIZE_MAX ->
    let p' := ConnectionPool.return_connection (Some db) p in
    ConnectionPool._pool p' = ConnectionPool._pool p /\
    ConnectionPool._currentConnections p' = ConnectionPool._currentConnections p - 1.
Proof.
  intros W B p db Hopen Hfull Hcount p'. subst p'.
  unfold ConnectionPool.return_connection, ConnectionPool.is_dead. rewrite Hopen. simpl.
  replace (Z.of_nat (List.length (ConnectionPool._pool p))
           <? ConnectionPool._maxConnections p) with false
    by (symmetry; apply Z.ltb_ge; lia).
  simpl. split; [ reflexivity | ]. now apply size_decr_positive.
Qed.

(** A pool of capacity 1 with one idle connection and a second one coming
    back. *)
Lemma ConnectionPool_return_to_full_store_witness :
  let p := {| ConnectionPool._connectionString := "host=db";
              ConnectionPool._pool := [Scripted.live_db []];
              ConnectionPool._maxConnections := 1;
              ConnectionPool._currentConnections := 2 |} in
  ConnectionPool._pool (ConnectionPool.return_connection (Some (Scripted.live_db [])) p)
  = ConnectionPool._pool p /\
  ConnectionPool._currentConnections
    (ConnectionPool.return_connection (Some (Scripted.live_db [])) p)
  = ConnectionPool._currentConnections p - 1.
Proof.
  apply (ConnectionPool_return_to_full_store Scripted.session Scripted.backend
           {| ConnectionPool._connectionString := "host=db";
              ConnectionPool._pool := [Scripted.live_db []];
              ConnectionPool._maxConnections := 1;
              ConnectionPool._currentConnections := 2 |}
           (Scripted.live_db [])).
  - reflexivity.
  - simpl. lia.
  - unfold SIZE_MAX. simpl. lia.
Defined.

(** X24. With the idle store empty and the live count below capacity,
    [get_connection] connects with the descriptor of the pool and, when that
    goes through, hands out the new Database and counts it. *)
Theorem ConnectionPool_get_constructs :
  forall (W : Type) (B : Backend W) (p : ConnectionPool.t W)
         (connect : string -> outcome W) (w : W),
    ConnectionPool._pool p = [] ->
    0 <= ConnectionPool._currentConnections p < ConnectionPool._maxConnections p ->
    ConnectionPool._maxConnections p <= SIZE_MAX ->
    connect (ConnectionPool._connectionString p) = Ret w ->
    snd (ConnectionPool.get_connection connect p)
    = Ret (Some {| Database._conn := Some w |}) /\
    ConnectionPool._currentConnections (fst (ConnectionPool.get_connection connect p))
    = ConnectionPool._currentConnections p + 1 /\
    ConnectionPool._pool (fst (ConnectionPool.get_connection connect p)) = [].
Proof.
  intros W B p connect w Hpool Hroom Hmax Hok.
  unfold ConnectionPool.get_connection, Database.ctor.
  rewrite Hpool, Hok. simpl.
  replace (ConnectionPool._currentConnections p <? ConnectionPool._maxConnections p)
    with true by (symmetry; apply Z.ltb_lt; lia).
  simpl. repeat split.
  apply (size_incr_below _ (ConnectionPool._maxConnections p)); assumption.
Qed.

(** The first lease of a fresh pool. *)
Lemma ConnectionPool_get_constructs_witness :
  let p := ConnectionPool.ctor (W := Scripted.session) "host=db" 2 in
  snd (ConnectionPool.get_connection Scripted.accept p)
  = Ret (Some {| Database._conn := Some (Scripted.fresh []) |}) /\
  ConnectionPool._currentConnections (fst (ConnectionPool.get_connection Scripted.accept p))
  = ConnectionPool._currentConnections p + 1 /\
  ConnectionPool._pool (fst (ConnectionPool.get_connection Scripted.accept p)) = [].
Proof.
  apply (ConnectionPool_get_constructs Scripted.session Scripted.backend
           (ConnectionPool.ctor "host=db" 2) Scripted.accept (Scripted.fresh [])).
  - reflexivity.
  - simpl. lia.
  - unfold SIZE_MAX. simpl. lia.
  - reflexivity.
Defined.

(** X25. Handing back the null that an exhausted pool returned frees a slot
    that no connection vacated: the pool, with all its [N] connections still
    out, then constructs one more. *)
Theorem ConnectionPool_null_return_frees_slot :
  forall (W : Type) (B : Backend W) (p : ConnectionPool.t W)
         (connect : string -> outcome W) (w : W),
    ConnectionPool._pool p = [] ->
    0 < ConnectionPool._maxConnections p <= SIZE_MAX ->
    ConnectionPool._currentConnections p = ConnectionPool._maxConnections p ->
    connect (ConnectionPool._connectionString p) = Ret w ->
    ConnectionPool.get_connection connect p = (p, Ret None) /\
    snd (ConnectionPool.get_connection connect
           (ConnectionPool.return_connection None p))
    = Ret (Some {| Database._conn := Some w |}) /\
    ConnectionPool._currentConnections
      (fst (ConnectionPool.get_connection connect
              (ConnectionPool.return_connection None p)))
    = ConnectionPool._maxConnections p.
Proof.
  intros W B p connect w Hpool Hmax Hfull Hok. split.
  - now apply get_connection_exhausted.
  - unfold ConnectionPool.return_connection, ConnectionPool.drop. simpl.
    unfold ConnectionPool.get_connection, Database.ctor. simpl.
    rewrite Hpool, Hok. simpl.
    assert (Hdec : size_decr (ConnectionPool._currentConnections p)
                   = ConnectionPool._maxConnections p - 1)
      by (rewrite Hfull; apply size_decr_positive; lia).
    rewrite Hdec.
    replace (ConnectionPool._maxConnections p - 1 <? ConnectionPool._maxConnections p)
      with true by (symmetry; apply Z.ltb_lt; lia).
    simpl. split; [ reflexivity | ].
    rewrite (size_incr_below _ (ConnectionPool._maxConnections p)); lia.
Qed.

(** Capacity 1: one lease, a refused second call, the null handed back, and
    a second connection constructed. *)
Lemma ConnectionPool_null_return_frees_slot_witness :
  let p := fst (ConnectionPool.get_connection Scripted.accept
                  (ConnectionPool.ctor "host=db" 1)) in
  ConnectionPool.get_connection Scripted.accept p = (p, Ret None) /\
  snd (ConnectionPool.get_connection Scripted.accept
         (ConnectionPool.return_connection None p))
  = Ret (Some {| Database._conn := Some (Scripted.fresh []) |}) /\
  ConnectionPool._currentConnections
    (fst (ConnectionPool.get_connection Scripted.accept
            (ConnectionPool.return_connection None p)))
  = ConnectionPool._maxConnections p.
Proof.
  apply (ConnectionPool_null_return_frees_slot Scripted.session Scripted.backend
           (fst (ConnectionPool.get_connection Scripted.accept
                   (ConnectionPool.ctor "host=db" 1)))
           Scripted.accept (Scripted.fresh [])).
  - reflexivity.
  - unfold SIZE_MAX. simpl. lia.
  - reflexivity.
  - reflexivity.
Defined.
